(** * Chapter09/tls-server.c: a sequential TLS server, embedded and verified

    The program is three C functions: [main], [run_tls_server] and
    [handle_accepted_connection].  Everything they do goes through libc and
    OpenSSL, so the embedding is a small state monad over a [World] that
    holds the two things the code can observe or change: OpenSSL's error
    queue and the sequence of outputs and library calls made so far.  What
    the libraries answer is not decided by the program: it is read from a
    script of answers, one per call, over which every theorem quantifies. *)

From Stdlib Require Import ZArith List String Ascii Bool Lia.
From Equations Require Import Equations.
Import ListNotations.

Local Open Scope string_scope.
Local Open Scope Z_scope.

(** ** C strings *)

Definition NUL : ascii := "000"%char.
Definition LF : ascii := "010"%char.
Definition CR : ascii := "013"%char.

(** The escapes "\n" and "\r\n" of the C literals. *)
Definition nl : string := String LF EmptyString.
Definition crnl : string := String CR (String LF EmptyString).

Definition code (c : ascii) : Z := Z.of_nat (nat_of_ascii c).

(** A [string] stands for a [char] array; as a C string it ends at its first
    NUL, or at its end (a literal's terminator is implicit). *)
Fixpoint c_str (s : string) : string :=
  match s with
  | EmptyString => EmptyString
  | String c s' => if Ascii.eqb c NUL then EmptyString else String c (c_str s')
  end.

Fixpoint strlen (s : string) : nat :=
  match s with
  | EmptyString => 0%nat
  | String c s' => if Ascii.eqb c NUL then 0%nat else S (strlen s')
  end.

Fixpoint strcmp (a b : string) : Z :=
  match a, b with
  | EmptyString, EmptyString => 0
  | EmptyString, String d _ => 0 - code d
  | String c _, EmptyString => code c
  | String c a', String d b' =>
      if Ascii.eqb c d
      then if Ascii.eqb c NUL then 0 else strcmp a' b'
      else code c - code d
  end.

(** The first [n] bytes of an array: what [fwrite(buf, 1, n, f)] writes. *)
Fixpoint take (n : nat) (s : string) : string :=
  match n, s with
  | S n', String c s' => String c (take n' s')
  | _, _ => EmptyString
  end.

Fixpoint drop (n : nat) (s : string) : string :=
  match n, s with
  | S n', String _ s' => drop n' s'
  | _, _ => s
  end.

(** ** The world: error queue, outputs, library calls *)

Inductive FILE := stdout | stderr.

(** An argument of a printf format; a [%s] argument may be a NULL pointer. *)
Inductive Arg :=
| ArgS (s : option string)
| ArgI (i : Z).

(** One record of OpenSSL's error queue.  Its packed code is never 0. *)
Record ErrRec := mkErr { err_code : positive; err_data : string }.

Inductive BIOref := accept_bio | ssl_bio.

Inductive LibCall :=
| SSL_CTX_new
| SSL_CTX_use_PrivateKey_file (fname : option string) (type : Z)
| SSL_CTX_use_certificate_chain_file (fname : option string)
| SSL_CTX_check_private_key
| SSL_CTX_set_mode (mode : Z)
| BIO_new_accept (port : option string)
| BIO_do_accept
| BIO_pop
| BIO_new_ssl
| BIO_push
| BIO_do_handshake
| BIO_get_ssl
| SSL_get_shutdown
| BIO_get_line (size : Z)
| SSL_get_error (ret : Z)
| BIO_write (data : string) (len : Z)
| BIO_ssl_shutdown
| BIO_free_all (b : BIOref)
| SSL_CTX_free
| malloc (size : Z)
| free.

(** What the process does, as far as an observer can tell.  A [printf] is
    recorded by its format and arguments (the formatting itself is libc's),
    [ERR_print_errors_fp] by the records it prints, a library call by its
    name and the arguments that matter, and the diagnostic that a failed
    [assert] writes to stderr by the text of the asserted expression (the
    file name, the line and the layout are the C library's). *)
Inductive Event :=
| Fprintf (f : FILE) (fmt : string) (args : list Arg)
| Fwrite (f : FILE) (data : string)
| PrintErrors (f : FILE) (recs : list ErrRec)
| Call (c : LibCall)
| Assertion (expr : string).

Record World := mkWorld { queue : list ErrRec; trace : list Event }.

(** What a library call answers: its return value (a pointer is a nonzero
    value, NULL is 0) and the records it leaves on the error queue. *)
Record Answer := mkAnswer { ans_ret : Z; ans_errs : list ErrRec }.

(** ** The monad: a call returns, or the process aborts on a failed
    [assert], or it waits for the peer for ever. *)

Inductive Outcome (A : Type) : Type :=
| Ret (a : A) (w : World)
| Aborted (w : World)
| Blocked (w : World).
Arguments Ret {A} a w.
Arguments Aborted {A} w.
Arguments Blocked {A} w.

Definition M (A : Type) : Type := World -> Outcome A.

Definition ret {A} (a : A) : M A := fun w => Ret a w.

Definition bind {A B} (m : M A) (k : A -> M B) : M B :=
  fun w =>
    match m w with
    | Ret a w' => k a w'
    | Aborted w' => Aborted w'
    | Blocked w' => Blocked w'
    end.

Declare Scope prog_scope.
Delimit Scope prog_scope with prog.
Notation "x <- c1 ;; c2" := (bind c1 (fun x => c2))
  (at level 100, c1 at next level, right associativity) : prog_scope.
Notation "c1 ;; c2" := (bind c1 (fun _ => c2))
  (at level 100, right associativity) : prog_scope.
Local Open Scope prog_scope.

Definition emit (e : Event) : M unit :=
  fun w => Ret tt (mkWorld (queue w) (trace w ++ [e])).

Definition block {A} : M A := fun w => Blocked w.

(** [assert(expr)]: if the expression is false the diagnostic goes to
    stderr and the process aborts. *)
Definition assert (expr : string) (b : bool) : M unit :=
  fun w =>
    if b then Ret tt w
    else Aborted (mkWorld (queue w) (trace w ++ [Assertion expr])).

(** A call into OpenSSL: logged, its records queued, its value returned. *)
Definition lib (c : LibCall) (a : Answer) : M Z :=
  fun w => Ret (ans_ret a) (mkWorld (queue w ++ ans_errs a) (trace w ++ [Call c])).

(** A call into libc: logged; the error queue is OpenSSL's and is untouched. *)
Definition libc (c : LibCall) : M unit := emit (Call c).

Definition fprintf (f : FILE) (fmt : string) (args : list Arg) : M unit :=
  emit (Fprintf f fmt args).

Definition printf (fmt : string) (args : list Arg) : M unit :=
  fprintf stdout fmt args.

Definition fwrite (data : string) (f : FILE) : M unit :=
  emit (Fwrite f data).

(** [if (error_stream) ...]: the stream is a pointer that may be NULL. *)
Definition if_stream (error_stream : option FILE) (k : FILE -> M unit) : M unit :=
  match error_stream with
  | Some f => k f
  | None => ret tt
  end.

(** *** The error queue (openssl/err.h)

    OpenSSL is not part of the repository.  Its error queue is the spec's
    queue of pending diagnostic records, and the three functions the code
    calls on it are modelled from what the spec and OpenSSL's manual say of
    them. *)

(** Modelled from the spec: [ERR_clear_error] empties the queue. *)
Definition ERR_clear_error : M unit :=
  fun w => Ret tt (mkWorld [] (trace w)).

(** Modelled from the spec: [ERR_peek_error] returns the code of the
    earliest record, 0 when the queue is empty, and leaves the queue as it
    is. *)
Definition ERR_peek_error : M Z :=
  fun w =>
    Ret (match queue w with
         | [] => 0
         | r :: _ => Z.pos (err_code r)
         end) w.

(** Modelled from the spec: [ERR_print_errors_fp] prints every record,
    earliest first, and empties the queue. *)
Definition ERR_print_errors_fp (f : FILE) : M unit :=
  fun w => Ret tt (mkWorld [] (trace w ++ [PrintErrors f (queue w)])).

(** *** Macros of openssl/ssl.h

    The header is not part of the repository either; the numbers are those
    of OpenSSL 3. *)

(** Modelled from the spec: the key file is PEM. *)
Definition SSL_FILETYPE_PEM : Z := 1.

(** Modelled from the spec: automatic retry of interrupted partial I/O. *)
Definition SSL_MODE_AUTO_RETRY : Z := 4.

(** Modelled from the spec: the flag of a peer-initiated clean shutdown. *)
Definition SSL_RECEIVED_SHUTDOWN : Z := 2.

(** Modelled from the spec: the reason code of a read that met the peer's
    clean shutdown. *)
Definition SSL_ERROR_ZERO_RETURN : Z := 6.

(** ** The scripts: what the libraries answer *)

(** One turn of the read loop: the flags [SSL_get_shutdown] returns at the
    loop test, and, if the loop body runs, the return value of
    [BIO_get_line], the content of [in_buf] after it, the records the read
    leaves on the error queue, and what [SSL_get_error] says about it. *)
Record ReadStep := mkReadStep {
  rs_shutdown : Z;
  rs_nbytes : Z;
  rs_buf : string;
  rs_errs : list ErrRec;
  rs_ssl_error : Z
}.

(** One accepted connection.  A read script that ends while the loop still
    runs is a peer that stays silent: [BIO_get_line] never returns. *)
Record Conn := mkConn {
  c_in_buf : bool;          (* malloc(BUF_SIZE) is not NULL *)
  c_handshake : Answer;     (* BIO_do_handshake *)
  c_get_ssl : Answer;       (* BIO_get_ssl *)
  c_ssl : bool;             (* the SSL pointer it stores is not NULL *)
  c_reads : list ReadStep;
  c_write : Answer;         (* BIO_write *)
  c_shutdown : Answer;      (* BIO_ssl_shutdown; the code ignores its value *)
  c_free : Answer           (* BIO_free_all(ssl_bio) *)
}.

(** One turn of the accept loop. *)
Record Iter := mkIter {
  i_accept : Answer;        (* BIO_do_accept *)
  i_pop : Answer;           (* BIO_pop: the socket BIO *)
  i_new_ssl : Answer;       (* BIO_new_ssl *)
  i_push : Answer;          (* BIO_push *)
  i_conn : Conn
}.

(** The calls made before the accept loop and at the final cleanup. *)
Record Setup := mkSetup {
  s_ctx_new : Answer;       (* SSL_CTX_new *)
  s_use_key : Answer;       (* SSL_CTX_use_PrivateKey_file *)
  s_use_cert : Answer;      (* SSL_CTX_use_certificate_chain_file *)
  s_check_key : Answer;     (* SSL_CTX_check_private_key *)
  s_set_mode : Answer;      (* SSL_CTX_set_mode *)
  s_new_accept : Answer;    (* BIO_new_accept *)
  s_bind : Answer;          (* the first BIO_do_accept: bind and listen *)
  s_free_accept : Answer;   (* BIO_free_all(accept_bio) *)
  s_free_ctx : Answer       (* SSL_CTX_free *)
}.

(** An answer of a call that only returns a value. *)
Definition value (z : Z) : Answer := mkAnswer z [].

(** ** handle_accepted_connection *)

Definition BUF_SIZE : Z := 16 * 1024.

Definition response : string :=
  "HTTP/1.0 200 OK" ++ crnl ++
  "Content-type: text/plain" ++ crnl ++
  "Connection: close" ++ crnl ++
  "Server: Example TLS server" ++ crnl ++
  crnl ++
  "Hello from the TLS server!" ++ nl.

(** How one evaluation of the loop test and, if it holds, of the loop body
    leaves the [while] loop, if it does. *)
Inductive ReadCtl :=
| ReadNext        (* end of the body: back to the loop test *)
| ReadDone        (* loop test false, or [break] *)
| ReadFailure.    (* [goto failure] *)

Definition read_iteration (error_stream : option FILE) (s : ReadStep) : M ReadCtl :=
  flags <- lib SSL_get_shutdown (value (rs_shutdown s)) ;;
  if Z.land flags SSL_RECEIVED_SHUTDOWN =? SSL_RECEIVED_SHUTDOWN then ret ReadDone
  else
    nbytes_read <- lib (BIO_get_line BUF_SIZE) (mkAnswer (rs_nbytes s) (rs_errs s)) ;;
    let in_buf := rs_buf s in
    if nbytes_read <=? 0 then
      ssl_error <- lib (SSL_get_error nbytes_read) (value (rs_ssl_error s)) ;;
      if ssl_error =? SSL_ERROR_ZERO_RETURN then ret ReadDone
      else
        if_stream error_stream (fun f =>
          fprintf f ("Error %i while reading data from the client" ++ nl) [ArgI ssl_error]) ;;
        ret ReadFailure
    else
      fwrite (take (Z.to_nat nbytes_read) in_buf) stdout ;;
      if (strcmp in_buf crnl =? 0) || (strcmp in_buf nl =? 0) then ret ReadDone
      else ret ReadNext.

(** The [while] loop; [true] is [goto failure]. *)
Fixpoint read_loop (error_stream : option FILE) (steps : list ReadStep) : M bool :=
  match steps with
  | [] => block
  | s :: steps' =>
      r <- read_iteration error_stream s ;;
      match r with
      | ReadNext => read_loop error_stream steps'
      | ReadDone => ret false
      | ReadFailure => ret true
      end
  end.

(** The block at [cleanup:] that both functions end with: [exit_code] goes
    in and comes out. *)
Definition drain_queue (error_stream : option FILE) (exit_code : Z) : M Z :=
  peek <- ERR_peek_error ;;
  if negb (peek =? 0) then
    if_stream error_stream (fun f =>
      fprintf f ("Errors from the OpenSSL error queue:" ++ nl) [] ;;
      ERR_print_errors_fp f) ;;
    ERR_clear_error ;;
    ret 1
  else ret exit_code.

(** The statements from the handshake to [goto cleanup]; [true] is
    [goto failure]. *)
Definition connection_body (c : Conn) (error_stream : option FILE) : M bool :=
  err <- lib BIO_do_handshake (c_handshake c) ;;
  if err <=? 0 then
    if_stream error_stream (fun f => fprintf f ("TLS handshaking error" ++ nl) []) ;;
    ret true
  else
    err <- lib BIO_get_ssl (c_get_ssl c) ;;
    assert "err == 1" (err =? 1) ;;
    assert "ssl" (c_ssl c) ;;
    printf ("*** Receiving from the client:" ++ nl) [] ;;
    failed <- read_loop error_stream (c_reads c) ;;
    if failed then ret true
    else
      printf ("*** Receiving from the client finished" ++ nl) [] ;;
      let response_length := Z.of_nat (strlen response) in
      printf ("*** Sending to the client:" ++ nl) [] ;;
      printf "%s" [ArgS (Some response)] ;;
      nbytes_written <- lib (BIO_write response response_length) (c_write c) ;;
      if negb (nbytes_written =? response_length) then
        if_stream error_stream (fun f =>
          fprintf f ("Could not send data all to the client" ++ nl) []) ;;
        ret true
      else
        printf ("*** Sending to the client finished" ++ nl) [] ;;
        lib BIO_ssl_shutdown (c_shutdown c) ;;
        ret false.

(** [ssl_bio] is not NULL: the one caller asserts it before the call, so the
    test before [BIO_free_all] always holds. *)
Definition handle_accepted_connection (c : Conn) (error_stream : option FILE) : M Z :=
  libc (malloc BUF_SIZE) ;;
  assert "in_buf" (c_in_buf c) ;;
  ERR_clear_error ;;
  failed <- connection_body c error_stream ;;
  let exit_code := if failed then 1 else 0 in
  lib (BIO_free_all ssl_bio) (c_free c) ;;
  libc free ;;
  drain_queue error_stream exit_code.

(** ** run_tls_server *)

(** One turn of [while (1)]: it has no [break], [return] or [goto]. *)
Definition accept_iteration (port : option string) (error_stream : option FILE)
    (it : Iter) : M unit :=
  printf nl [] ;;
  printf ("*** Listening on port %s" ++ nl) [ArgS port] ;;
  printf nl [] ;;
  err <- lib BIO_do_accept (i_accept it) ;;
  if err <=? 0 then
    if_stream error_stream (fun f =>
      fprintf f ("Error when trying to accept connection" ++ nl) []) ;;
    peek <- ERR_peek_error ;;
    if negb (peek =? 0) then
      if_stream error_stream (fun f =>
        fprintf f ("Errors from the OpenSSL error queue:" ++ nl) [] ;;
        ERR_print_errors_fp f) ;;
      ERR_clear_error
    else ret tt
  else
    socket_bio <- lib BIO_pop (i_pop it) ;;
    assert "socket_bio" (negb (socket_bio =? 0)) ;;
    new_bio <- lib BIO_new_ssl (i_new_ssl it) ;;
    assert "ssl_bio" (negb (new_bio =? 0)) ;;
    lib BIO_push (i_push it) ;;
    handle_accepted_connection (i_conn it) error_stream ;;
    ret tt.

(** The loop over the turns of the script; when the script ends the server
    is where it spends its life, waiting in [BIO_do_accept]. *)
Fixpoint accept_loop (port : option string) (error_stream : option FILE)
    (iters : list Iter) : M bool :=
  match iters with
  | [] =>
      printf nl [] ;;
      printf ("*** Listening on port %s" ++ nl) [ArgS port] ;;
      printf nl [] ;;
      block
  | it :: iters' =>
      accept_iteration port error_stream it ;;
      accept_loop port error_stream iters'
  end.

(** The statements from the key load to the loop.  Every way out is a
    [goto failure]; the value says whether [accept_bio] has been created. *)
Definition server_body (port server_keypair_fname server_cert_chain_fname : option string)
    (error_stream : option FILE) (s : Setup) (iters : list Iter) : M bool :=
  err <- lib (SSL_CTX_use_PrivateKey_file server_keypair_fname SSL_FILETYPE_PEM) (s_use_key s) ;;
  if err <=? 0 then
    if_stream error_stream (fun f =>
      fprintf f ("Could not load server keypair from file %s" ++ nl)
        [ArgS server_keypair_fname]) ;;
    ret false
  else
    err <- lib (SSL_CTX_use_certificate_chain_file server_cert_chain_fname) (s_use_cert s) ;;
    if err <=? 0 then
      if_stream error_stream (fun f =>
        fprintf f ("Could not load server certificate chain from file %s" ++ nl)
          [ArgS server_cert_chain_fname]) ;;
      ret false
    else
      err <- lib SSL_CTX_check_private_key (s_check_key s) ;;
      if err <=? 0 then
        if_stream error_stream (fun f =>
          fprintf f ("Server keypair does not match server certificate" ++ nl) []) ;;
        ret false
      else
        lib (SSL_CTX_set_mode SSL_MODE_AUTO_RETRY) (s_set_mode s) ;;
        new_bio <- lib (BIO_new_accept port) (s_new_accept s) ;;
        assert "accept_bio" (negb (new_bio =? 0)) ;;
        err <- lib BIO_do_accept (s_bind s) ;;
        if err <=? 0 then
          if_stream error_stream (fun f =>
            fprintf f ("Could not bind to port %s and start listening for incoming TCP connections" ++ nl)
              [ArgS port]) ;;
          ret true
        else
          peek <- ERR_peek_error ;;
          if negb (peek =? 0) then
            if_stream error_stream (fun f =>
              fprintf f ("Unexpected error during TLS server setup" ++ nl) []) ;;
            ret true
          else accept_loop port error_stream iters.

Definition run_tls_server (port server_keypair_fname server_cert_chain_fname : option string)
    (error_stream : option FILE) (s : Setup) (iters : list Iter) : M Z :=
  ERR_clear_error ;;
  ctx <- lib SSL_CTX_new (s_ctx_new s) ;;
  assert "ctx" (negb (ctx =? 0)) ;;
  has_accept_bio <-
    server_body port server_keypair_fname server_cert_chain_fname error_stream s iters ;;
  let exit_code := 1 in
  (if has_accept_bio then lib (BIO_free_all accept_bio) (s_free_accept s) ;; ret tt
   else ret tt) ;;
  lib SSL_CTX_free (s_free_ctx s) ;;
  drain_queue error_stream exit_code.

(** ** main *)

(** [argv[i]]; [argv[argc]] is the NULL pointer that ends the array. *)
Definition arg (argv : list string) (i : nat) : option string := nth_error argv i.

Definition usage : string :=
  "Usage: %s PORT SERVER_KEYPAIR_FILE SERVER_CERT_CHAIN_FILE" ++ nl.

Definition main (argv : list string) (s : Setup) (iters : list Iter) : M Z :=
  let argc := Z.of_nat (List.length argv) in
  if negb (argc =? 3) && negb (argc =? 4) then
    fprintf stderr usage [ArgS (arg argv 0)] ;;
    ret 1
  else
    let port := arg argv 1 in
    let server_keypair_fname := arg argv 2 in
    let server_cert_chain_fname := arg argv 3 in
    err <- run_tls_server port server_keypair_fname server_cert_chain_fname
             (Some stderr) s iters ;;
    if negb (err =? 0) then
      fprintf stderr ("TLS communication failed" ++ nl) [] ;;
      ret 1
    else
      fprintf stderr ("TLS communication succeeded" ++ nl) [] ;;
      ret 0.

(** The process starts with an empty error queue and nothing done. *)
Definition boot : World := mkWorld [] [].

(** * Predicates, traces and scripts *)

(** A line as [BIO_get_line] cuts it: a newline ends it, so a newline can
    only be its last byte. *)
Fixpoint lf_only_last (line : string) : bool :=
  match line with
  | EmptyString => true
  | String c line' =>
      if Ascii.eqb c LF
      then match line' with EmptyString => true | String _ _ => false end
      else lf_only_last line'
  end.

(** ** The read loop *)

(** The peer's close_notify has been received: bit 1 of the shutdown flags. *)
Definition shutdown_flag (s : ReadStep) : Prop := Z.testbit (rs_shutdown s) 1 = true.

(** The read ended on the peer's clean shutdown. *)
Definition zero_return (s : ReadStep) : Prop :=
  rs_nbytes s <= 0 /\ rs_ssl_error s = SSL_ERROR_ZERO_RETURN.

(** The bytes the read stored: the first [nbytes_read] of the buffer. *)
Definition line_read (s : ReadStep) : string :=
  take (Z.to_nat (rs_nbytes s)) (rs_buf s).

Definition blank_line (s : ReadStep) : Prop :=
  0 < rs_nbytes s /\ (line_read s = crnl \/ line_read s = nl).

(** Modelled from the spec: what a [BIO_get_line] that returns a positive
    count has done, as OpenSSL's manual has it.  The bytes are stored with a
    NUL after them, and the line is cut after its first newline. *)
Definition get_line_contract (s : ReadStep) : Prop :=
  0 < rs_nbytes s ->
  String.get (Z.to_nat (rs_nbytes s)) (rs_buf s) = Some NUL /\
  lf_only_last (line_read s) = true.

(** ** Worlds and traces *)

(** [w] followed by what a run from [boot] added. *)
Definition join (w w0 : World) : World :=
  mkWorld (queue w ++ queue w0) (trace w ++ trace w0).

Definition shift {A} (w : World) (o : Outcome A) : Outcome A :=
  match o with
  | Ret a w0 => Ret a (join w w0)
  | Aborted w0 => Aborted (join w w0)
  | Blocked w0 => Blocked (join w w0)
  end.

Definition world_of {A} (o : Outcome A) : World :=
  match o with
  | Ret _ w => w
  | Aborted w => w
  | Blocked w => w
  end.

(** The library calls of a trace, in order. *)
Definition lib_calls (t : list Event) : list LibCall :=
  flat_map (fun e => match e with Call c => [c] | _ => [] end) t.

(** The byte strings handed to [BIO_write], in order. *)
Definition wrote (t : list Event) : list string :=
  flat_map (fun e => match e with
                     | Call (BIO_write data len) => [take (Z.to_nat len) data]
                     | _ => []
                     end) t.

(** The error records printed, in order. *)
Definition reported (t : list Event) : list ErrRec :=
  flat_map (fun e => match e with PrintErrors _ recs => recs | _ => [] end) t.

(** What the block at [cleanup:] prints for a pending queue [q]. *)
Definition queue_report (error_stream : option FILE) (q : list ErrRec) : list Event :=
  match q, error_stream with
  | _ :: _, Some f =>
      [Fprintf f ("Errors from the OpenSSL error queue:" ++ nl) []; PrintErrors f q]
  | _, _ => []
  end.

(** A message on the error stream, if there is one. *)
Definition message (error_stream : option FILE) (fmt : string) (args : list Arg) : list Event :=
  match error_stream with
  | Some f => [Fprintf f fmt args]
  | None => []
  end.

(** The value a run returns, if it returns. *)
Definition ctl_of {A} (o : Outcome A) : option A :=
  match o with
  | Ret a _ => Some a
  | _ => None
  end.

(** How the read loop over a script ends: [Some false] normally,
    [Some true] by [goto failure], [None] if the peer stays silent. *)
Definition reads_end (steps : list ReadStep) : option bool :=
  ctl_of (read_loop None steps boot).

(** All the records the reads of a script can leave on the queue. *)
Definition reads_errs (steps : list ReadStep) : list ErrRec := flat_map rs_errs steps.

(** ** What a connection's trace is made of *)

Definition response_length : Z := Z.of_nat (strlen response).

(** From the handshake to the read loop. *)
Definition receiving : list Event :=
  [Call BIO_do_handshake; Call BIO_get_ssl;
   Fprintf stdout ("*** Receiving from the client:" ++ nl) []].

(** From the end of the read loop to the write. *)
Definition sending : list Event :=
  [Fprintf stdout ("*** Receiving from the client finished" ++ nl) [];
   Fprintf stdout ("*** Sending to the client:" ++ nl) [];
   Fprintf stdout "%s" [ArgS (Some response)];
   Call (BIO_write response response_length)].

(** After a write accepted in full. *)
Definition closing : list Event :=
  [Fprintf stdout ("*** Sending to the client finished" ++ nl) [];
   Call BIO_ssl_shutdown].

(** The release of the connection's resources at [cleanup:]. *)
Definition release : list Event := [Call (BIO_free_all ssl_bio); Call free].

(** The allocations the code asserts: the connection has its buffer and,
    the handshake done, its SSL pointer. *)
Definition conn_allocated (c : Conn) : Prop :=
  c_in_buf c = true /\ ans_ret (c_get_ssl c) = 1 /\ c_ssl c = true.

(** The same, asking for the SSL pointer only where the code does: after a
    handshake that succeeded. *)
Definition conn_asserts (c : Conn) : Prop :=
  c_in_buf c = true /\
  (0 < ans_ret (c_handshake c) -> ans_ret (c_get_ssl c) = 1 /\ c_ssl c = true).

(** The peer of the connection does not fall silent in the read loop. *)
Definition peer_talks (c : Conn) : Prop :=
  0 < ans_ret (c_handshake c) -> reads_end (c_reads c) <> None.

(** The banner at the top of the accept loop. *)
Definition banner (port : option string) : list Event :=
  [Fprintf stdout nl [];
   Fprintf stdout ("*** Listening on port %s" ++ nl) [ArgS port];
   Fprintf stdout nl []].

(** The asserts of one turn of the accept loop hold. *)
Definition iter_asserts (it : Iter) : Prop :=
  0 < ans_ret (i_accept it) ->
  ans_ret (i_pop it) <> 0 /\ ans_ret (i_new_ssl it) <> 0 /\ conn_asserts (i_conn it).

(** All the records the calls of one turn can leave on the queue. *)
Definition iter_errs (it : Iter) : list ErrRec :=
  ans_errs (i_accept it) ++ ans_errs (i_pop it) ++ ans_errs (i_new_ssl it) ++
  ans_errs (i_push it) ++
  ans_errs (c_handshake (i_conn it)) ++ ans_errs (c_get_ssl (i_conn it)) ++
  reads_errs (c_reads (i_conn it)) ++ ans_errs (c_write (i_conn it)) ++
  ans_errs (c_shutdown (i_conn it)) ++ ans_errs (c_free (i_conn it)).

(** All the records the calls of a connection can leave on the queue. *)
Definition conn_errs (c : Conn) : list ErrRec :=
  ans_errs (c_handshake c) ++ ans_errs (c_get_ssl c) ++ reads_errs (c_reads c) ++
  ans_errs (c_write c) ++ ans_errs (c_shutdown c) ++ ans_errs (c_free c).

(** The turns of the accept loop a trace shows: its banners. *)
Definition turns (t : list Event) : nat :=
  List.length
    (filter (fun e => match e with
                      | Fprintf stdout fmt [ArgS _] =>
                          String.eqb fmt ("*** Listening on port %s" ++ nl)
                      | _ => false
                      end) t).

(** ** run_tls_server *)


(** The records the setup calls leave on the queue, which [run_tls_server]
    has cleared on entry: what [ERR_peek_error] sees before the loop. *)
Definition residue (s : Setup) : list ErrRec :=
  ans_errs (s_ctx_new s) ++ ans_errs (s_use_key s) ++ ans_errs (s_use_cert s) ++
  ans_errs (s_check_key s) ++ ans_errs (s_set_mode s) ++ ans_errs (s_new_accept s) ++
  ans_errs (s_bind s).

(** The two allocations the setup asserts. *)
Definition setup_asserts (s : Setup) : Prop :=
  ans_ret (s_ctx_new s) <> 0 /\ ans_ret (s_new_accept s) <> 0.

(** Key load, certificate load, key check and bind all report success. *)
Definition setup_succeeds (s : Setup) : Prop :=
  0 < ans_ret (s_use_key s) /\ 0 < ans_ret (s_use_cert s) /\
  0 < ans_ret (s_check_key s) /\ 0 < ans_ret (s_bind s).

Definition context_calls (server_keypair_fname server_cert_chain_fname : option string)
    : list Event :=
  [Call SSL_CTX_new;
   Call (SSL_CTX_use_PrivateKey_file server_keypair_fname SSL_FILETYPE_PEM);
   Call (SSL_CTX_use_certificate_chain_file server_cert_chain_fname);
   Call SSL_CTX_check_private_key].

Definition bind_calls (port : option string) : list Event :=
  [Call (SSL_CTX_set_mode SSL_MODE_AUTO_RETRY); Call (BIO_new_accept port);
   Call BIO_do_accept].

Definition server_release : list Event :=
  [Call (BIO_free_all accept_bio); Call SSL_CTX_free].

(** ** Concrete scripts *)

Definition ok : Answer := value 1.

(** A line of the peer as a read stores it: no shutdown flag, the bytes
    followed by NUL, nothing queued. *)
Definition data_step (chunk : string) : ReadStep :=
  mkReadStep 0 (Z.of_nat (String.length chunk))
    (chunk ++ String NUL EmptyString) [] 0.

(** A client that sends the empty line at once, served without a fault. *)
Definition hello_conn : Conn :=
  mkConn true ok ok true [data_step nl] (value 119) ok ok.

(** The same client, but the channel takes only 60 bytes of the response. *)
Definition short_write_conn : Conn :=
  mkConn true ok ok true [data_step nl] (value 60) ok ok.

Definition shutdown_record : ErrRec := mkErr 167772454 "SSL_shutdown:shutdown while in init".

(** The same client, but the shutdown fails and says why on the queue. *)
Definition shutdown_error_conn : Conn :=
  mkConn true ok ok true [data_step nl] (value 119)
    (mkAnswer (-1) [shutdown_record]) ok.

Definition handshake_record : ErrRec := mkErr 167773202 "ssl3_get_record:wrong version number".

(** A client whose handshake fails. *)
Definition bad_handshake_conn : Conn :=
  mkConn true (mkAnswer (-1) [handshake_record]) ok true [] ok ok ok.

Definition good_setup : Setup := mkSetup ok ok ok ok ok ok ok ok ok.

Definition pem_record : ErrRec := mkErr 75497580 "PEM_read_bio:no start line".


Definition socket_record : ErrRec := mkErr 2147483650 "setsockopt:protocol not available".


(** The certificate chain cannot be loaded (as from a NULL file name). *)
Definition no_chain_setup : Setup :=
  mkSetup ok ok (mkAnswer 0 []) ok ok ok ok ok ok.

Definition turn (c : Conn) : Iter := mkIter ok ok ok ok c.

(** ** A line longer than the buffer *)

(** Modelled from the spec: [BIO_get_line], the spec's line read of at most
    the buffer's capacity, is OpenSSL's and not in the repository.  With room
    for [room] bytes it stores of the pending input the bytes up to and
    including the first newline, and no more than [room] of them: a longer
    line is cut there, and the next read goes on where this one stopped. *)
Fixpoint get_line (room : nat) (pending : string) : string :=
  match room, pending with
  | S room', String c pending' =>
      if Ascii.eqb c LF then String c EmptyString
      else String c (get_line room' pending')
  | _, _ => EmptyString
  end.

(** The bytes successive reads store, until the input is used up. *)
Equations? chunks_of (room : nat) (pending : string) : list string
    by wf (String.length pending) lt :=
  chunks_of 0 _ := [];
  chunks_of (S r) EmptyString := [];
  chunks_of (S r) (String c p) :=
    get_line (S r) (String c p) ::
    chunks_of (S r) (drop (String.length (get_line (S r) (String c p))) (String c p)).
Proof.
  assert (shorter : forall n s, (String.length (drop n s) <= String.length s)%nat).
  { induction n as [|n IH]; intros [|a s]; cbn; auto. }
  destruct (Ascii.eqb c LF); cbn; [lia|]. specialize (shorter (String.length (get_line r p)) p). lia.
Qed.

(** [BIO_get_line(ssl_bio, in_buf, BUF_SIZE)] has room for one byte less
    than the buffer: the last is for the NUL. *)
Definition capacity : nat := Z.to_nat (BUF_SIZE - 1).

(** What the loop shows of a read that stored [chunk]. *)
Definition chunk_events (chunk : string) : list Event :=
  [Call SSL_get_shutdown; Call (BIO_get_line BUF_SIZE); Fwrite stdout chunk].

Definition is_blank (chunk : string) : bool :=
  String.eqb chunk crnl || String.eqb chunk nl.

(** [n] times the byte [c]. *)
Fixpoint fill (n : nat) (c : ascii) : string :=
  match n with
  | O => EmptyString
  | S n' => String c (fill n' c)
  end.

(** A line of 16383 bytes before its "\r\n": 16385 bytes, one more than
    the buffer holds. *)
Definition long_line : string := fill capacity "a" ++ crnl.

(** The key file cannot be read. *)
Definition no_key_setup : Setup :=
  mkSetup ok (mkAnswer 0 [pem_record]) ok ok ok ok ok ok ok.

(** The world after a first turn whose shutdown failed. *)
Definition after_first_turn : World :=
  world_of (accept_iteration (Some "4433") (Some stderr) (turn shutdown_error_conn) boot).

(** The world after a second turn, served without a fault. *)
Definition after_second_turn : World :=
  world_of (accept_iteration (Some "4433") (Some stderr) (turn hello_conn) after_first_turn).

(** A line of 20000 bytes before its newline. *)
Definition longer_line : string := fill (Z.to_nat 20000) "a" ++ nl.

(** ** More to say of a run *)

(** The byte strings [fwrite] has echoed to stdout, in order. *)
Definition echoed (t : list Event) : list string :=
  flat_map (fun e => match e with Fwrite stdout data => [data] | _ => [] end) t.

(** What reaches the process's stderr. *)
Definition to_stderr (t : list Event) : list Event :=
  filter (fun e => match e with
                   | Fprintf stderr _ _ | Fwrite stderr _ | PrintErrors stderr _
                   | Assertion _ => true
                   | _ => false
                   end) t.

(** An event that is no message: a library call or an echo of the request. *)
Definition silent (e : Event) : bool :=
  match e with
  | Call _ | Fwrite _ _ => true
  | Fprintf _ _ _ | PrintErrors _ _ | Assertion _ => false
  end.

(** A world without its messages. *)
Definition mute (w : World) : World := mkWorld (queue w) (filter silent (trace w)).

Definition mute_outcome {A} (o : Outcome A) : Outcome A :=
  match o with
  | Ret a w => Ret a (mute w)
  | Aborted w => Aborted (mute w)
  | Blocked w => Blocked (mute w)
  end.

(** Two programs that differ in their messages only: from worlds that agree
    but for the messages they end the same way, with the same value, in
    worlds that agree but for the messages. *)
Definition sim {A} (m1 m2 : M A) : Prop :=
  forall w1 w2, mute w1 = mute w2 -> mute_outcome (m1 w1) = mute_outcome (m2 w2).

(** A program that writes nothing to stderr itself: if it returns or waits,
    stderr is as it was; if it aborts, stderr has the diagnostic of the
    failed [assert] and nothing else. *)
Definition quiet {A} (m : M A) : Prop :=
  forall w,
    match m w with
    | Ret _ w' | Blocked w' => to_stderr (trace w') = to_stderr (trace w)
    | Aborted w' =>
        exists expr, to_stderr (trace w') = (to_stderr (trace w) ++ [Assertion expr])%list
    end.

(** A call that uses the connection: handshake, read or write. *)
Definition channel_use (c : LibCall) : bool :=
  match c with
  | BIO_do_handshake | BIO_get_ssl | SSL_get_shutdown | BIO_get_line _
  | SSL_get_error _ | BIO_write _ _ => true
  | _ => false
  end.

(** The read of the script stores [line]: the shutdown flag is not set, the
    count is the length of the line, and the buffer holds the line, a NUL,
    and whatever earlier reads have left behind it. *)
Definition stores (s : ReadStep) (line : string) : Prop :=
  Z.testbit (rs_shutdown s) 1 = false /\
  rs_nbytes s = Z.of_nat (String.length line) /\
  (0 < String.length line)%nat /\
  lf_only_last line = true /\
  exists left_over, rs_buf s = (line ++ String NUL left_over)%string.

(** The records the reads of a script leave on the queue. *)
Definition reads_queue (steps : list ReadStep) : list ErrRec :=
  queue (world_of (read_loop None steps boot)).

(** The records pending at the cleanup of a connection that reached the
    shutdown. *)
Definition conn_pending (c : Conn) : list ErrRec :=
  ans_errs (c_handshake c) ++ ans_errs (c_get_ssl c) ++ reads_queue (c_reads c) ++
  ans_errs (c_write c) ++ ans_errs (c_shutdown c) ++ ans_errs (c_free c).

(** The library calls of a [run_tls_server] that has returned: what was
    created is released, in the reverse order. *)
Definition server_calls (port key cert : option string) : list (list LibCall) :=
  let new := SSL_CTX_new in
  let use_key := SSL_CTX_use_PrivateKey_file key SSL_FILETYPE_PEM in
  let use_cert := SSL_CTX_use_certificate_chain_file cert in
  [ [new; use_key; SSL_CTX_free];
    [new; use_key; use_cert; SSL_CTX_free];
    [new; use_key; use_cert; SSL_CTX_check_private_key; SSL_CTX_free];
    [new; use_key; use_cert; SSL_CTX_check_private_key;
     SSL_CTX_set_mode SSL_MODE_AUTO_RETRY; BIO_new_accept port; BIO_do_accept;
     BIO_free_all accept_bio; SSL_CTX_free] ].

(** *** More concrete scripts *)

(** A read with a record on the queue and the rest of an earlier, longer
    line behind the NUL. *)
Definition noisy_step (line left_over : string) (r : ErrRec) : ReadStep :=
  mkReadStep 0 (Z.of_nat (String.length line))
    (line ++ String NUL left_over) [r] 0.

Definition retry_record : ErrRec := mkErr 167772427 "ssl3_read_n:unexpected eof while reading".

(** A request of two header lines and the empty line; after it the peer
    would send more. *)
Definition request_conn : Conn :=
  mkConn true ok ok true
    [data_step ("GET / HTTP/1.0" ++ crnl);
     noisy_step ("Host: a" ++ crnl) ("/1.0" ++ crnl) retry_record;
     noisy_step crnl ("t: a" ++ crnl) retry_record;
     data_step ("never read" ++ nl)]
    (value 119) ok ok.

(** A peer whose close_notify has arrived before the first read. *)
Definition closed_conn : Conn :=
  mkConn true ok ok true [mkReadStep 2 0 EmptyString [] 0] (value 119) ok ok.

(** The port is taken. *)
Definition no_bind_setup : Setup :=
  mkSetup ok ok ok ok ok ok (mkAnswer 0 [socket_record]) ok ok.

Definition reset_record : ErrRec := mkErr 167772294 "ssl3_read_bytes:tlsv1 alert internal error".

(** A peer that sends one line and then breaks the connection: the read
    returns -1 and [SSL_get_error] gives [SSL_ERROR_SSL]. *)
Definition reset_conn : Conn :=
  mkConn true ok ok true
    [data_step ("GET / HTTP/1.0" ++ crnl); mkReadStep 0 (-1) EmptyString [reset_record] 1]
    (value 119) ok ok.

(** The formats of the messages a connection's handler prints when
    something has gone wrong. *)
Definition failure_formats : list string :=
  ["TLS handshaking error" ++ nl;
   "Error %i while reading data from the client" ++ nl;
   "Could not send data all to the client" ++ nl;
   "Errors from the OpenSSL error queue:" ++ nl]%string.

Definition is_diagnostic (e : Event) : bool :=
  match e with
  | Fprintf _ fmt _ => existsb (String.eqb fmt) failure_formats
  | PrintErrors _ _ => true
  | _ => false
  end.

(** The diagnostics of a trace, in order. *)
Definition diagnostics (t : list Event) : list Event := filter is_diagnostic t.

(** A turn whose accept succeeds and leaves a record on the queue. *)
Definition noisy_turn : Iter := mkIter (mkAnswer 1 [socket_record]) ok ok ok hello_conn.

(** ** The reads of a request, by what they answer *)

(** The read stores a line that is not the empty line. *)
Definition goes_on (s : ReadStep) : Prop :=
  ~ shutdown_flag s /\ get_line_contract s /\ 0 < rs_nbytes s /\
  line_read s <> crnl /\ line_read s <> nl.

(** The request ends at this read: the peer has closed, or the line is the
    empty line. *)
Definition ends_request (s : ReadStep) : Prop :=
  (shutdown_flag s \/ zero_return s) \/ blank_line s.

(** The read fails: no shutdown flag, nothing read, and not the peer's
    clean close. *)
Definition read_fails (s : ReadStep) : Prop :=
  ~ shutdown_flag s /\ rs_nbytes s <= 0 /\ rs_ssl_error s <> SSL_ERROR_ZERO_RETURN.

(** What the loop shows of a read that stored a line. *)
Definition read_events (s : ReadStep) : list Event :=
  [Call SSL_get_shutdown; Call (BIO_get_line BUF_SIZE); Fwrite stdout (line_read s)].

(** The world after reads that each stored a line. *)
Definition after_reads (prefix : list ReadStep) (w : World) : World :=
  mkWorld (queue w ++ reads_errs prefix)%list (trace w ++ flat_map read_events prefix)%list.




(** A connection for which [malloc] returns NULL. *)
Definition no_buffer_conn : Conn :=
  mkConn false ok ok true [data_step nl] (value 119) ok ok.
(** * Reasoning about the embedding *)

Local Open Scope list_scope.
Local Open Scope Z_scope.

(** Unfolds the monad and its primitives, leaving the worlds. *)
Ltac step :=
  unfold bind, ret, lib, libc, printf, fprintf, fwrite, emit, assert, value,
    if_stream, ERR_clear_error, ERR_peek_error, ERR_print_errors_fp, block;
  cbn [queue trace ans_ret ans_errs].

(** ** C strings *)

Lemma code_inj c d : code c = code d -> c = d.
Proof.
  unfold code. intros H. apply Nat2Z.inj in H.
  rewrite <- (ascii_nat_embedding c), <- (ascii_nat_embedding d). now rewrite H.
Qed.

Lemma code_NUL c : code c = 0 -> c = NUL.
Proof. intros H. apply code_inj. exact H. Qed.

Lemma strcmp_c_str a : forall b, strcmp a b = 0 <-> c_str a = c_str b.
Proof.
  induction a as [|c a IH]; intros [|d b]; cbn.
  - tauto.
  - destruct (Ascii.eqb_spec d NUL) as [->|Hd].
    + cbn. tauto.
    + split; [intros H | discriminate].
      exfalso. apply Hd, code_NUL. lia.
  - destruct (Ascii.eqb_spec c NUL) as [->|Hc].
    + cbn. tauto.
    + split; [intros H | discriminate].
      exfalso. now apply Hc, code_NUL.
  - destruct (Ascii.eqb_spec c d) as [->|Hcd].
    + destruct (Ascii.eqb_spec d NUL) as [->|Hd]; [tauto|].
      rewrite IH. split; [now intros -> | now intros [= ->]].
    + split.
      * intros H. exfalso. apply Hcd, code_inj. lia.
      * destruct (Ascii.eqb_spec c NUL) as [->|Hc];
          destruct (Ascii.eqb_spec d NUL) as [->|Hd]; try discriminate.
        -- congruence.
        -- intros [= E _]. congruence.
Qed.

Lemma take_drop n : forall s, (take n s ++ drop n s)%string = s.
Proof.
  induction n as [|n IH]; intros [|c s]; cbn; try reflexivity.
  now rewrite IH.
Qed.

Lemma take_append (a b : string) : take (String.length a) (a ++ b)%string = a.
Proof. induction a as [|c a IH]; cbn; [now destruct b | now rewrite IH]. Qed.

(** An array whose byte at index [n] is NUL holds, as a C string, the C
    string of its first [n] bytes. *)
Lemma c_str_take n : forall buf,
  String.get n buf = Some NUL -> c_str buf = c_str (take n buf).
Proof.
  induction n as [|n IH]; intros [|c buf]; cbn; try discriminate.
  - intros [= ->]. reflexivity.
  - intros H. destruct (Ascii.eqb c NUL); [reflexivity|]. now rewrite (IH buf H).
Qed.

Lemma c_str_nl line : lf_only_last line = true -> c_str line = nl -> line = nl.
Proof.
  destruct line as [|c line]; cbn; [discriminate|].
  destruct (Ascii.eqb_spec c NUL) as [->|Hc]; [discriminate|].
  intros Hl [= -> E]. cbn in Hl. now destruct line.
Qed.

Lemma c_str_crnl line : lf_only_last line = true -> c_str line = crnl -> line = crnl.
Proof.
  destruct line as [|c line]; cbn; [discriminate|].
  destruct (Ascii.eqb_spec c NUL) as [->|Hc]; [discriminate|].
  intros Hl [= -> E]. cbn in Hl. unfold crnl. f_equal. now apply c_str_nl.
Qed.

Example strcmp_equal : strcmp (crnl ++ String NUL "left over") crnl = 0.
Proof. reflexivity. Qed.

Example strcmp_less : strcmp "abc" "abd" = -1.
Proof. reflexivity. Qed.

Example strcmp_longer : strcmp (nl ++ "x") nl = 120.
Proof. reflexivity. Qed.

Example strlen_response : strlen response = 119%nat.
Proof. reflexivity. Qed.

(** ** The two bits of [SSL_get_shutdown] *)

Lemma received_shutdown_bit flags :
  (Z.land flags SSL_RECEIVED_SHUTDOWN =? SSL_RECEIVED_SHUTDOWN) = Z.testbit flags 1.
Proof.
  unfold SSL_RECEIVED_SHUTDOWN.
  destruct (Z.testbit flags 1) eqn:B.
  - apply Z.eqb_eq. apply Z.bits_inj'. intros n Hn.
    rewrite Z.land_spec. change 2 with (2 ^ 1). rewrite Z.pow2_bits_eqb by lia.
    destruct (Z.eqb_spec 1 n) as [<-|_]; [now rewrite B | apply andb_false_r].
  - apply Z.eqb_neq. intros H.
    assert (E : Z.testbit (Z.land flags 2) 1 = Z.testbit 2 1) by now rewrite H.
    rewrite Z.land_spec, B in E. discriminate.
Qed.

Lemma Ret_inj {A} (a a' : A) w w' : Ret a w = Ret a' w' -> a = a' /\ w = w'.
Proof. now intros [= -> ->]. Qed.

(** ** Traces *)

Lemma lib_calls_app t1 t2 : lib_calls (t1 ++ t2) = lib_calls t1 ++ lib_calls t2.
Proof. apply flat_map_app. Qed.

Lemma wrote_app t1 t2 : wrote (t1 ++ t2) = wrote t1 ++ wrote t2.
Proof. apply flat_map_app. Qed.

Lemma reported_app t1 t2 : reported (t1 ++ t2) = reported t1 ++ reported t2.
Proof. apply flat_map_app. Qed.

Lemma lib_calls_message es fmt args : lib_calls (message es fmt args) = [].
Proof. now destruct es. Qed.

Lemma wrote_message es fmt args : wrote (message es fmt args) = [].
Proof. now destruct es. Qed.

Lemma reported_message es fmt args : reported (message es fmt args) = [].
Proof. now destruct es. Qed.

Lemma lib_calls_queue_report es q : lib_calls (queue_report es q) = [].
Proof. now destruct q, es. Qed.

Lemma wrote_queue_report es q : wrote (queue_report es q) = [].
Proof. now destruct q, es. Qed.

Lemma reported_queue_report es q : incl (reported (queue_report es q)) q.
Proof.
  destruct q as [|r q], es as [f|]; cbn; try apply incl_nil_l.
  rewrite app_nil_r. apply incl_refl.
Qed.

(** The projections of a trace, pushed through its pieces. *)
Create Rewrite HintDb traces.
#[local] Hint Rewrite lib_calls_app wrote_app reported_app
  lib_calls_message wrote_message reported_message
  lib_calls_queue_report wrote_queue_report : traces.

Lemma turns_app t1 t2 : turns (t1 ++ t2) = (turns t1 + turns t2)%nat.
Proof. unfold turns. now rewrite filter_app, length_app. Qed.

Lemma turns_call c t : turns (Call c :: t) = turns t.
Proof. reflexivity. Qed.

Lemma turns_message es fmt : turns (message es fmt []) = 0%nat.
Proof. now destruct es as [[]|]. Qed.

Lemma turns_message_other es fmt args :
  String.eqb fmt ("*** Listening on port %s" ++ nl) = false ->
  turns (message es fmt args) = 0%nat.
Proof.
  intros H. destruct es as [[]|]; try reflexivity.
  unfold turns. cbn [message filter]. destruct args as [|[] [|]]; try reflexivity.
  now rewrite H.
Qed.

Lemma turns_queue_report es q : turns (queue_report es q) = 0%nat.
Proof. now destruct q, es as [[]|]. Qed.

(** ** Frames: code that never clears the queue does from any world what it
    does from [boot], appended. *)

Lemma join_boot w : join w boot = w.
Proof. destruct w. unfold join. cbn. now rewrite !app_nil_r. Qed.

Ltac frame :=
  unfold shift, join; cbn [queue trace app boot];
  repeat (progress (rewrite ?app_nil_r, <- ?app_assoc; cbn [app]));
  try reflexivity.

Lemma read_iteration_frame es s w :
  read_iteration es s w = shift w (read_iteration es s boot).
Proof.
  unfold read_iteration. step.
  destruct (_ =? SSL_RECEIVED_SHUTDOWN); [frame|].
  destruct (rs_nbytes s <=? 0).
  - step. destruct (_ =? SSL_ERROR_ZERO_RETURN); [frame|].
    destruct es; step; frame.
  - step. destruct (_ || _); frame.
Qed.

Lemma shift_join {A} w w1 (o : Outcome A) : shift (join w w1) o = shift w (shift w1 o).
Proof. destruct o; unfold shift, join; cbn; now rewrite !app_assoc. Qed.

Lemma read_loop_frame es steps : forall w,
  read_loop es steps w = shift w (read_loop es steps boot).
Proof.
  induction steps as [|s steps IH]; intros w; cbn [read_loop].
  - unfold block. cbn [shift]. now rewrite join_boot.
  - unfold bind. rewrite read_iteration_frame.
    destruct (read_iteration es s boot) as [[] w1|w1|w1]; cbn [shift]; try reflexivity.
    rewrite IH, (IH w1). apply shift_join.
Qed.

(** The reads write nothing to the peer, print no error record, show no
    banner, and queue only records of their own script. *)
Lemma read_iteration_events es s r w1 :
  read_iteration es s boot = Ret r w1 ->
  wrote (trace w1) = [] /\ reported (trace w1) = [] /\ turns (trace w1) = 0%nat /\
  incl (queue w1) (rs_errs s).
Proof.
  unfold read_iteration. step.
  destruct (_ =? SSL_RECEIVED_SHUTDOWN).
  { intros [= <- <-]. cbn. auto using incl_nil_l. }
  destruct (rs_nbytes s <=? 0).
  - step. destruct (_ =? SSL_ERROR_ZERO_RETURN).
    + intros [= <- <-]. cbn. rewrite app_nil_r. auto using incl_refl.
    + destruct es as [[]|]; step; intros [= <- <-]; cbn; rewrite app_nil_r;
        auto using incl_refl.
  - step. destruct (_ || _); intros [= <- <-]; cbn; auto using incl_refl.
Qed.

Lemma read_loop_events es steps : forall failed w1,
  read_loop es steps boot = Ret failed w1 ->
  wrote (trace w1) = [] /\ reported (trace w1) = [] /\ turns (trace w1) = 0%nat /\
  incl (queue w1) (reads_errs steps).
Proof.
  induction steps as [|s steps IH]; intros failed w1; cbn [read_loop]; [discriminate|].
  unfold bind. destruct (read_iteration es s boot) as [r w0|w0|w0] eqn:E; try discriminate.
  destruct (read_iteration_events _ _ _ _ E) as (Hw & Hr & Ht & Hq).
  assert (Hcons : incl (queue w0) (reads_errs (s :: steps))).
  { unfold reads_errs. cbn. now apply incl_appl. }
  destruct r; try (intros [= <- <-]; auto).
  rewrite read_loop_frame.
  destruct (read_loop es steps boot) as [b w2|w2|w2] eqn:E2; cbn [shift]; try discriminate.
  intros [= <- <-]. destruct (IH _ _ eq_refl) as (Hw2 & Hr2 & Ht2 & Hq2).
  unfold join. cbn [queue trace].
  rewrite wrote_app, reported_app, turns_app, Hw, Hr, Ht, Hw2, Hr2, Ht2.
  repeat split; auto. apply incl_app; [exact Hcons|].
  unfold reads_errs. cbn. now apply incl_appr.
Qed.

(** How the loop ends depends on the script alone, not on the world or on
    the error stream. *)
Lemma ctl_of_Ret {A} (o : Outcome A) a : ctl_of o = Some a -> exists w, o = Ret a w.
Proof. destruct o; cbn; intros [= ->] || discriminate. now eexists. Qed.

Lemma read_iteration_ret es s w :
  exists r w', read_iteration es s w = Ret r w' /\
               ctl_of (read_iteration None s boot) = Some r.
Proof.
  unfold read_iteration. step.
  destruct (_ =? SSL_RECEIVED_SHUTDOWN); [now eexists _, _|].
  destruct (rs_nbytes s <=? 0).
  - step. destruct (_ =? SSL_ERROR_ZERO_RETURN); [now eexists _, _|].
    destruct es; now eexists _, _.
  - step. destruct (_ || _); now eexists _, _.
Qed.

Lemma read_loop_ctl steps : forall es w,
  ctl_of (read_loop es steps w) = reads_end steps.
Proof.
  unfold reads_end.
  induction steps as [|s steps IH]; intros es w; cbn [read_loop]; [reflexivity|].
  unfold bind. destruct (read_iteration_ret es s w) as (r & w' & -> & E).
  destruct (ctl_of_Ret _ _ E) as [w0 ->].
  destruct r; try reflexivity. now rewrite !IH.
Qed.

Lemma read_loop_Ret es steps failed w :
  reads_end steps = Some failed -> exists w', read_loop es steps w = Ret failed w'.
Proof. intros H. apply ctl_of_Ret. now rewrite read_loop_ctl. Qed.

(** ** The cleanup block and the connection handler *)

Lemma drain_queue_spec es exit_code w :
  drain_queue es exit_code w =
    Ret (match queue w with [] => exit_code | _ :: _ => 1 end)
        (mkWorld [] (trace w ++ queue_report es (queue w))).
Proof.
  unfold drain_queue. destruct w as [[|r q] t]; step; cbn [queue_report].
  - now rewrite app_nil_r.
  - destruct es; step; cbn [Z.eqb negb queue trace]; now rewrite ?app_nil_r, <- ?app_assoc.
Qed.

Lemma connection_body_frame c es w :
  connection_body c es w = shift w (connection_body c es boot).
Proof.
  unfold connection_body. destruct es as [f|]; step;
    (destruct (ans_ret (c_handshake c) <=? 0); [frame|]);
    (destruct (ans_ret (c_get_ssl c) =? 1); [|frame]);
    (destruct (c_ssl c); [|frame]);
    cbn [queue trace];
    rewrite read_loop_frame, (read_loop_frame _ (c_reads c) (mkWorld _ _));
    (destruct (read_loop _ (c_reads c) boot) as [[] w1|w1|w1]; cbn [shift]; try frame);
    (destruct (_ =? Z.of_nat (strlen response)); cbn [negb]; frame).
Qed.

(** The handler from any world, by what its body does from [boot]: the
    queue it meets is dropped, the records pending at the end decide the
    exit code together with [goto failure], and they are printed and cleared. *)
Lemma handle_accepted_connection_spec c es w :
  c_in_buf c = true ->
  handle_accepted_connection c es w =
    match connection_body c es boot with
    | Ret failed w0 =>
        let q := queue w0 ++ ans_errs (c_free c) in
        Ret (match q with [] => if failed then 1 else 0 | _ :: _ => 1 end)
            (mkWorld []
               (trace w ++ [Call (malloc BUF_SIZE)] ++ trace w0 ++
                [Call (BIO_free_all ssl_bio); Call free] ++ queue_report es q))
    | Aborted w0 =>
        Aborted (mkWorld (queue w0) (trace w ++ [Call (malloc BUF_SIZE)] ++ trace w0))
    | Blocked w0 =>
        Blocked (mkWorld (queue w0) (trace w ++ [Call (malloc BUF_SIZE)] ++ trace w0))
    end.
Proof.
  intros Hbuf. unfold handle_accepted_connection. step. rewrite Hbuf.
  rewrite connection_body_frame.
  destruct (connection_body c es boot) as [failed w0|w0|w0]; cbn [shift]; try frame.
  unfold join. cbn [queue trace app]. rewrite drain_queue_spec. cbn [queue trace].
  frame.
Qed.

Lemma connection_body_handshake c es :
  ans_ret (c_handshake c) <= 0 ->
  connection_body c es boot =
    Ret true (mkWorld (ans_errs (c_handshake c))
                ([Call BIO_do_handshake] ++ message es ("TLS handshaking error" ++ nl) [])).
Proof.
  intros H. unfold connection_body. step.
  destruct (Z.leb_spec (ans_ret (c_handshake c)) 0); [|lia].
  destruct es; step; reflexivity.
Qed.

(** The body after a handshake, by how the read loop ends. *)
Lemma connection_body_after_handshake c es :
  0 < ans_ret (c_handshake c) -> ans_ret (c_get_ssl c) = 1 -> c_ssl c = true ->
  connection_body c es boot =
    match read_loop es (c_reads c) boot with
    | Ret failed w1 =>
        let q := ans_errs (c_handshake c) ++ ans_errs (c_get_ssl c) ++ queue w1 in
        let t := receiving ++ trace w1 in
        if failed then Ret true (mkWorld q t)
        else if ans_ret (c_write c) =? response_length
        then Ret false (mkWorld (q ++ ans_errs (c_write c) ++ ans_errs (c_shutdown c))
                          (t ++ sending ++ closing))
        else Ret true (mkWorld (q ++ ans_errs (c_write c))
                         (t ++ sending ++
                          message es ("Could not send data all to the client" ++ nl) []))
    | Aborted w1 =>
        Aborted (mkWorld (ans_errs (c_handshake c) ++ ans_errs (c_get_ssl c) ++ queue w1)
                   (receiving ++ trace w1))
    | Blocked w1 =>
        Blocked (mkWorld (ans_errs (c_handshake c) ++ ans_errs (c_get_ssl c) ++ queue w1)
                   (receiving ++ trace w1))
    end.
Proof.
  intros Hh Hg Hs. unfold connection_body, response_length. step.
  destruct (Z.leb_spec (ans_ret (c_handshake c)) 0); [lia|].
  rewrite Hg, Hs. cbn [Z.eqb Pos.eqb queue trace]. rewrite read_loop_frame.
  unfold receiving, sending, closing.
  destruct (read_loop es (c_reads c) boot) as [failed w1|w1|w1]; cbn [shift]; try frame.
  destruct failed; [frame|]. step.
  destruct (_ =? Z.of_nat (strlen response)); cbn [negb]; [frame|].
  destruct es; step; frame.
Qed.

Lemma connection_body_reads c es failed w1 :
  0 < ans_ret (c_handshake c) -> ans_ret (c_get_ssl c) = 1 -> c_ssl c = true ->
  read_loop es (c_reads c) boot = Ret failed w1 ->
  connection_body c es boot =
    let q := ans_errs (c_handshake c) ++ ans_errs (c_get_ssl c) ++ queue w1 in
    let t := receiving ++ trace w1 in
    if failed then Ret true (mkWorld q t)
    else if ans_ret (c_write c) =? response_length
    then Ret false (mkWorld (q ++ ans_errs (c_write c) ++ ans_errs (c_shutdown c))
                      (t ++ sending ++ closing))
    else Ret true (mkWorld (q ++ ans_errs (c_write c))
                     (t ++ sending ++
                      message es ("Could not send data all to the client" ++ nl) [])).
Proof.
  intros Hh Hg Hs Hr. rewrite (connection_body_after_handshake c es Hh Hg Hs), Hr.
  reflexivity.
Qed.

(** A failed assert after the handshake aborts the process. *)
Lemma connection_body_assert c es :
  0 < ans_ret (c_handshake c) -> ans_ret (c_get_ssl c) <> 1 \/ c_ssl c = false ->
  ctl_of (connection_body c es boot) = None.
Proof.
  intros Hh Ha. unfold connection_body. step.
  destruct (Z.leb_spec (ans_ret (c_handshake c)) 0); [lia|].
  destruct (Z.eqb_spec (ans_ret (c_get_ssl c)) 1) as [Hg|Hg]; [|reflexivity].
  destruct Ha as [Ha|Ha]; [contradiction|]. now rewrite Ha.
Qed.

(** Whatever way the body returns, it has printed no error record, and the
    queue holds only records of the connection's own calls. *)
Lemma connection_body_events c es failed w0 :
  connection_body c es boot = Ret failed w0 ->
  reported (trace w0) = [] /\ turns (trace w0) = 0%nat /\
  incl (queue w0)
    (ans_errs (c_handshake c) ++ ans_errs (c_get_ssl c) ++ reads_errs (c_reads c) ++
     ans_errs (c_write c) ++ ans_errs (c_shutdown c)).
Proof.
  destruct (Z.leb_spec (ans_ret (c_handshake c)) 0) as [Hh|Hh].
  { rewrite connection_body_handshake by exact Hh. intros [= <- <-].
    destruct es as [[]|]; cbn; (split; [reflexivity|]); (split; [reflexivity|]);
      apply incl_appl, incl_refl. }
  destruct (Z.eq_dec (ans_ret (c_get_ssl c)) 1) as [Hg|Hg].
  2:{ intros E. pose proof (connection_body_assert c es Hh (or_introl Hg)) as N.
      rewrite E in N. discriminate. }
  destruct (c_ssl c) eqn:Hs.
  2:{ intros E. pose proof (connection_body_assert c es Hh (or_intror Hs)) as N.
      rewrite E in N. discriminate. }
  rewrite (connection_body_after_handshake c es Hh Hg Hs).
  destruct (read_loop es (c_reads c) boot) as [b w1|w1|w1] eqn:E1; try discriminate.
  destruct (read_loop_events _ _ _ _ E1) as (_ & Hr1 & Ht1 & Hq1). cbv zeta.
  assert (Hq : incl (ans_errs (c_handshake c) ++ ans_errs (c_get_ssl c) ++ queue w1)
                 (ans_errs (c_handshake c) ++ ans_errs (c_get_ssl c) ++
                  reads_errs (c_reads c) ++ ans_errs (c_write c) ++ ans_errs (c_shutdown c))).
  { repeat (apply incl_app_app; [apply incl_refl|]). now apply incl_appl. }
  destruct b; [|destruct (_ =? response_length)];
    intros E; apply Ret_inj in E as [<- <-]; cbn [queue trace];
    rewrite ?reported_app, ?reported_message, ?turns_app, ?turns_message, Hr1, Ht1;
    (split; [reflexivity|]); (split; [reflexivity|]); auto.
  - apply incl_app; [exact Hq|].
    do 3 apply incl_appr. apply incl_refl.
  - apply incl_app; [exact Hq|].
    do 3 apply incl_appr. now apply incl_appl.
Qed.

Lemma handle_accepted_connection_no_buffer c es w :
  c_in_buf c = false -> ctl_of (handle_accepted_connection c es w) = None.
Proof. intros H. unfold handle_accepted_connection. step. now rewrite H. Qed.

(** If the handler returns, it returns 0 or 1 with an empty queue, and every
    record it has printed was queued by a call of this connection. *)
Lemma handle_accepted_connection_inv c es w exit_code w' :
  handle_accepted_connection c es w = Ret exit_code w' ->
  queue w' = [] /\ (exit_code = 0 \/ exit_code = 1) /\
  exists evs, trace w' = trace w ++ evs /\ turns evs = 0%nat /\
              incl (reported evs) (conn_errs c).
Proof.
  destruct (c_in_buf c) eqn:Hbuf.
  2:{ intros E. pose proof (handle_accepted_connection_no_buffer c es w Hbuf) as N.
      rewrite E in N. discriminate. }
  rewrite (handle_accepted_connection_spec c es w Hbuf).
  destruct (connection_body c es boot) as [failed w0|w0|w0] eqn:E0; try discriminate.
  destruct (connection_body_events _ _ _ _ E0) as (Hr & Ht & Hq).
  cbv zeta. intros E. apply Ret_inj in E as [<- <-]. cbn [queue trace].
  split; [reflexivity|]. split.
  { destruct (queue w0 ++ ans_errs (c_free c)); [destruct failed|]; auto. }
  eexists. split; [reflexivity|]. split.
  { rewrite !turns_app, Ht, turns_queue_report. reflexivity. }
  rewrite !reported_app, Hr. cbn [reported flat_map app].
  eapply incl_tran; [apply reported_queue_report|].
  unfold conn_errs. rewrite !app_assoc. apply incl_app_app; [|apply incl_refl].
  now rewrite <- !app_assoc.
Qed.

(** With its asserts true and a peer that talks, the handler returns. *)
Lemma handle_accepted_connection_returns c es w :
  conn_asserts c -> peer_talks c ->
  exists exit_code w', handle_accepted_connection c es w = Ret exit_code w'.
Proof.
  intros (Hbuf & Ha) Ht. rewrite (handle_accepted_connection_spec c es w Hbuf).
  destruct (Z.leb_spec (ans_ret (c_handshake c)) 0) as [Hh|Hh].
  { rewrite connection_body_handshake by exact Hh. now eexists _, _. }
  destruct (Ha Hh) as (Hg & Hs). specialize (Ht Hh).
  destruct (reads_end (c_reads c)) as [failed|] eqn:Hr; [|contradiction].
  destruct (read_loop_Ret es _ _ boot Hr) as [w1 E1].
  rewrite (connection_body_reads c es failed w1 Hh Hg Hs E1). cbv zeta.
  destruct failed; [|destruct (_ =? response_length)]; now eexists _, _.
Qed.

(** ** One turn of the accept loop *)

Lemma accept_iteration_failed port es it w :
  ans_ret (i_accept it) <= 0 ->
  accept_iteration port es it w =
    Ret tt (mkWorld []
              (trace w ++ banner port ++ [Call BIO_do_accept] ++
               message es ("Error when trying to accept connection" ++ nl) [] ++
               queue_report es (queue w ++ ans_errs (i_accept it)))).
Proof.
  intros H. unfold accept_iteration, banner. step.
  destruct (Z.leb_spec (ans_ret (i_accept it)) 0); [|lia].
  destruct es as [f|]; step;
    destruct (queue w ++ ans_errs (i_accept it)) as [|r q] eqn:Eq;
    cbn [Z.eqb negb queue trace message queue_report]; rewrite ?Eq; frame.
Qed.

Lemma accept_iteration_handled port es it w :
  0 < ans_ret (i_accept it) -> ans_ret (i_pop it) <> 0 -> ans_ret (i_new_ssl it) <> 0 ->
  accept_iteration port es it w =
    match
      handle_accepted_connection (i_conn it) es
        (mkWorld (queue w ++ ans_errs (i_accept it) ++ ans_errs (i_pop it) ++
                  ans_errs (i_new_ssl it) ++ ans_errs (i_push it))
           (trace w ++ banner port ++
            [Call BIO_do_accept; Call BIO_pop; Call BIO_new_ssl; Call BIO_push]))
    with
    | Ret _ w' => Ret tt w'
    | Aborted w' => Aborted w'
    | Blocked w' => Blocked w'
    end.
Proof.
  intros Ha Hp Hn. unfold accept_iteration, banner. step.
  destruct (Z.leb_spec (ans_ret (i_accept it)) 0); [lia|].
  destruct (Z.eqb_spec (ans_ret (i_pop it)) 0); [contradiction|].
  cbn [negb queue trace].
  destruct (Z.eqb_spec (ans_ret (i_new_ssl it)) 0); [contradiction|].
  cbn [negb queue trace].
  repeat (rewrite <- ?app_assoc; cbn [app]).
  reflexivity.
Qed.

Lemma accept_iteration_assert port es it w :
  0 < ans_ret (i_accept it) -> ans_ret (i_pop it) = 0 \/ ans_ret (i_new_ssl it) = 0 ->
  ctl_of (accept_iteration port es it w) = None.
Proof.
  intros Ha Hz. unfold accept_iteration. step.
  destruct (Z.leb_spec (ans_ret (i_accept it)) 0); [lia|].
  destruct (Z.eqb_spec (ans_ret (i_pop it)) 0); [reflexivity|].
  cbn [negb queue trace].
  destruct (Z.eqb_spec (ans_ret (i_new_ssl it)) 0); [reflexivity|].
  lia.
Qed.

(** A turn that comes back has emptied the queue, and every record it has
    printed was on the queue when it began or was queued by one of its own
    calls; a turn that handled a connection printed only that connection's. *)
Lemma accept_iteration_inv port es it w w' :
  accept_iteration port es it w = Ret tt w' ->
  queue w' = [] /\
  exists evs, trace w' = trace w ++ evs /\ turns evs = 1%nat /\
    incl (reported evs) (queue w ++ iter_errs it) /\
    (0 < ans_ret (i_accept it) -> incl (reported evs) (conn_errs (i_conn it))).
Proof.
  destruct (Z.leb_spec (ans_ret (i_accept it)) 0) as [Ha|Ha].
  { rewrite accept_iteration_failed by exact Ha. intros E. apply Ret_inj in E as [_ <-].
    cbn [queue trace]. split; [reflexivity|]. eexists. split; [reflexivity|].
    split; [rewrite !turns_app, turns_message, turns_queue_report; reflexivity|].
    split; [|lia].
    rewrite !reported_app, reported_message. cbn [banner reported flat_map app].
    eapply incl_tran; [apply reported_queue_report|].
    apply incl_app_app; [apply incl_refl|]. unfold iter_errs. apply incl_appl, incl_refl. }
  destruct (Z.eq_dec (ans_ret (i_pop it)) 0) as [Hp|Hp].
  { intros E. pose proof (accept_iteration_assert port es it w Ha (or_introl Hp)) as N.
    rewrite E in N. discriminate. }
  destruct (Z.eq_dec (ans_ret (i_new_ssl it)) 0) as [Hn|Hn].
  { intros E. pose proof (accept_iteration_assert port es it w Ha (or_intror Hn)) as N.
    rewrite E in N. discriminate. }
  rewrite (accept_iteration_handled port es it w Ha Hp Hn).
  destruct (handle_accepted_connection _ _ _) as [code w1|w1|w1] eqn:E1; try discriminate.
  destruct (handle_accepted_connection_inv _ _ _ _ _ E1) as (Hq & _ & evs & Ht & Hn1 & Hr).
  intros E. apply Ret_inj in E as [_ <-]. split; [exact Hq|].
  cbn [trace] in Ht. eexists. split; [rewrite Ht, <- !app_assoc; reflexivity|].
  split; [rewrite !turns_app, Hn1; reflexivity|].
  assert (R : incl (reported ((banner port ++
                [Call BIO_do_accept; Call BIO_pop; Call BIO_new_ssl; Call BIO_push]) ++ evs))
                (conn_errs (i_conn it))).
  { rewrite reported_app. exact Hr. }
  rewrite <- app_assoc in R. split; [|intros _; exact R].
  eapply incl_tran; [exact R|]. apply incl_appr. unfold iter_errs, conn_errs.
  do 4 apply incl_appr. apply incl_refl.
Qed.

(** A turn whose asserts hold and whose peer talks comes back to the loop,
    whatever fails in it. *)
Lemma accept_iteration_returns port es it w :
  iter_asserts it -> (0 < ans_ret (i_accept it) -> peer_talks (i_conn it)) ->
  exists w', accept_iteration port es it w = Ret tt w'.
Proof.
  intros Hi Ht. destruct (Z.leb_spec (ans_ret (i_accept it)) 0) as [Ha|Ha].
  { rewrite accept_iteration_failed by exact Ha. now eexists. }
  destruct (Hi Ha) as (Hp & Hn & Hc).
  rewrite (accept_iteration_handled port es it w Ha Hp Hn).
  destruct (handle_accepted_connection_returns (i_conn it) es
              (mkWorld (queue w ++ ans_errs (i_accept it) ++ ans_errs (i_pop it) ++
                        ans_errs (i_new_ssl it) ++ ans_errs (i_push it))
                 (trace w ++ banner port ++
                  [Call BIO_do_accept; Call BIO_pop; Call BIO_new_ssl; Call BIO_push]))
              Hc (Ht Ha)) as (code & w' & ->).
  now eexists.
Qed.


(** ** The accept loop *)

(** [while (1)] has no way out: the loop does not return. *)
Lemma accept_loop_never_returns port es iters : forall w,
  ctl_of (accept_loop port es iters w) = None.
Proof.
  induction iters as [|it iters IH]; intros w; cbn [accept_loop].
  - reflexivity.
  - unfold bind at 1. destruct (accept_iteration port es it w); [apply IH | |]; reflexivity.
Qed.


(** ** run_tls_server, branch by branch *)

Ltac norm := repeat (progress (rewrite ?app_nil_r, <- ?app_assoc; cbn [app])).

Lemma run_tls_server_no_context port key cert es s iters w :
  ans_ret (s_ctx_new s) = 0 ->
  ctl_of (run_tls_server port key cert es s iters w) = None.
Proof. intros H. unfold run_tls_server. step. now rewrite H. Qed.

Lemma run_tls_server_key port key cert es s iters w :
  ans_ret (s_ctx_new s) <> 0 -> ans_ret (s_use_key s) <= 0 ->
  run_tls_server port key cert es s iters w =
    Ret 1 (mkWorld []
             (trace w ++
              [Call SSL_CTX_new; Call (SSL_CTX_use_PrivateKey_file key SSL_FILETYPE_PEM)] ++
              message es ("Could not load server keypair from file %s" ++ nl) [ArgS key] ++
              [Call SSL_CTX_free] ++
              queue_report es (ans_errs (s_ctx_new s) ++ ans_errs (s_use_key s) ++
                               ans_errs (s_free_ctx s)))).
Proof.
  intros Hc Hk. unfold run_tls_server, server_body. step.
  destruct (Z.eqb_spec (ans_ret (s_ctx_new s)) 0); [contradiction|]. cbn [negb queue trace].
  destruct (Z.leb_spec (ans_ret (s_use_key s)) 0); [|lia].
  destruct es; step; rewrite drain_queue_spec; cbn [queue trace message]; norm;
    f_equal; now destruct (ans_errs (s_ctx_new s) ++ _).
Qed.

Lemma run_tls_server_cert port key cert es s iters w :
  ans_ret (s_ctx_new s) <> 0 -> 0 < ans_ret (s_use_key s) ->
  ans_ret (s_use_cert s) <= 0 ->
  run_tls_server port key cert es s iters w =
    Ret 1 (mkWorld []
             (trace w ++
              [Call SSL_CTX_new; Call (SSL_CTX_use_PrivateKey_file key SSL_FILETYPE_PEM);
               Call (SSL_CTX_use_certificate_chain_file cert)] ++
              message es ("Could not load server certificate chain from file %s" ++ nl)
                [ArgS cert] ++
              [Call SSL_CTX_free] ++
              queue_report es (ans_errs (s_ctx_new s) ++ ans_errs (s_use_key s) ++
                               ans_errs (s_use_cert s) ++ ans_errs (s_free_ctx s)))).
Proof.
  intros Hc Hk Hcert. unfold run_tls_server, server_body. step.
  destruct (Z.eqb_spec (ans_ret (s_ctx_new s)) 0); [contradiction|]. cbn [negb queue trace].
  destruct (Z.leb_spec (ans_ret (s_use_key s)) 0); [lia|].
  destruct (Z.leb_spec (ans_ret (s_use_cert s)) 0); [|lia].
  destruct es; step; rewrite drain_queue_spec; cbn [queue trace message]; norm;
    f_equal; now destruct (ans_errs (s_ctx_new s) ++ _).
Qed.

Lemma run_tls_server_check port key cert es s iters w :
  ans_ret (s_ctx_new s) <> 0 -> 0 < ans_ret (s_use_key s) ->
  0 < ans_ret (s_use_cert s) -> ans_ret (s_check_key s) <= 0 ->
  run_tls_server port key cert es s iters w =
    Ret 1 (mkWorld []
             (trace w ++ context_calls key cert ++
              message es ("Server keypair does not match server certificate" ++ nl) [] ++
              [Call SSL_CTX_free] ++
              queue_report es (ans_errs (s_ctx_new s) ++ ans_errs (s_use_key s) ++
                               ans_errs (s_use_cert s) ++ ans_errs (s_check_key s) ++
                               ans_errs (s_free_ctx s)))).
Proof.
  intros Hc Hk Hcert Hchk. unfold run_tls_server, server_body, context_calls. step.
  destruct (Z.eqb_spec (ans_ret (s_ctx_new s)) 0); [contradiction|]. cbn [negb queue trace].
  destruct (Z.leb_spec (ans_ret (s_use_key s)) 0); [lia|].
  destruct (Z.leb_spec (ans_ret (s_use_cert s)) 0); [lia|].
  destruct (Z.leb_spec (ans_ret (s_check_key s)) 0); [|lia].
  destruct es; step; rewrite drain_queue_spec; cbn [queue trace message]; norm;
    f_equal; now destruct (ans_errs (s_ctx_new s) ++ _).
Qed.

Lemma run_tls_server_no_accept_bio port key cert es s iters w :
  0 < ans_ret (s_use_key s) -> 0 < ans_ret (s_use_cert s) ->
  0 < ans_ret (s_check_key s) -> ans_ret (s_new_accept s) = 0 ->
  ctl_of (run_tls_server port key cert es s iters w) = None.
Proof.
  intros Hk Hcert Hchk Hn. unfold run_tls_server, server_body. step.
  destruct (negb (ans_ret (s_ctx_new s) =? 0)); [|reflexivity]. cbn [queue trace].
  destruct (Z.leb_spec (ans_ret (s_use_key s)) 0); [lia|].
  destruct (Z.leb_spec (ans_ret (s_use_cert s)) 0); [lia|].
  destruct (Z.leb_spec (ans_ret (s_check_key s)) 0); [lia|].
  now rewrite Hn.
Qed.

Lemma run_tls_server_bind port key cert es s iters w :
  setup_asserts s -> 0 < ans_ret (s_use_key s) -> 0 < ans_ret (s_use_cert s) ->
  0 < ans_ret (s_check_key s) -> ans_ret (s_bind s) <= 0 ->
  run_tls_server port key cert es s iters w =
    Ret 1 (mkWorld []
             (trace w ++ context_calls key cert ++ bind_calls port ++
              message es ("Could not bind to port %s and start listening for incoming TCP connections" ++ nl)
                [ArgS port] ++
              server_release ++
              queue_report es (residue s ++ ans_errs (s_free_accept s) ++
                               ans_errs (s_free_ctx s)))).
Proof.
  intros (Hc & Hn) Hk Hcert Hchk Hb.
  unfold run_tls_server, server_body, context_calls, bind_calls, server_release, residue.
  step.
  destruct (Z.eqb_spec (ans_ret (s_ctx_new s)) 0); [contradiction|]. cbn [negb queue trace].
  destruct (Z.leb_spec (ans_ret (s_use_key s)) 0); [lia|].
  destruct (Z.leb_spec (ans_ret (s_use_cert s)) 0); [lia|].
  destruct (Z.leb_spec (ans_ret (s_check_key s)) 0); [lia|].
  destruct (Z.eqb_spec (ans_ret (s_new_accept s)) 0); [contradiction|]. cbn [negb queue trace].
  destruct (Z.leb_spec (ans_ret (s_bind s)) 0); [|lia].
  destruct es; step; rewrite drain_queue_spec; cbn [queue trace message]; norm;
    f_equal; now destruct (ans_errs (s_ctx_new s) ++ _).
Qed.

(** The test of the queue between the bind and the loop. *)
Lemma run_tls_server_residue port key cert es s iters w :
  setup_asserts s -> setup_succeeds s -> residue s <> [] ->
  run_tls_server port key cert es s iters w =
    Ret 1 (mkWorld []
             (trace w ++ context_calls key cert ++ bind_calls port ++
              message es ("Unexpected error during TLS server setup" ++ nl) [] ++
              server_release ++
              queue_report es (residue s ++ ans_errs (s_free_accept s) ++
                               ans_errs (s_free_ctx s)))).
Proof.
  intros (Hc & Hn) (Hk & Hcert & Hchk & Hb) Hres.
  unfold run_tls_server, server_body, context_calls, bind_calls, server_release.
  step.
  destruct (Z.eqb_spec (ans_ret (s_ctx_new s)) 0); [contradiction|]. cbn [negb queue trace].
  destruct (Z.leb_spec (ans_ret (s_use_key s)) 0); [lia|].
  destruct (Z.leb_spec (ans_ret (s_use_cert s)) 0); [lia|].
  destruct (Z.leb_spec (ans_ret (s_check_key s)) 0); [lia|].
  destruct (Z.eqb_spec (ans_ret (s_new_accept s)) 0); [contradiction|]. cbn [negb queue trace].
  destruct (Z.leb_spec (ans_ret (s_bind s)) 0); [lia|].
  norm. fold (residue s). cbn [queue trace].
  destruct (residue s) as [|r q] eqn:Er; [contradiction|].
  cbn [Z.eqb negb].
  destruct es; step; rewrite drain_queue_spec; cbn [queue trace message]; norm; reflexivity.
Qed.

(** With the setup done and the queue empty the server is in its loop: it
    does not return, and it waits where the loop waits. *)
Lemma run_tls_server_loop port key cert es s iters w :
  setup_asserts s -> setup_succeeds s -> residue s = [] ->
  ctl_of (run_tls_server port key cert es s iters w) = None /\
  forall w',
    accept_loop port es iters
      (mkWorld [] (trace w ++ context_calls key cert ++ bind_calls port)) = Blocked w' ->
    run_tls_server port key cert es s iters w = Blocked w'.
Proof.
  intros (Hc & Hn) (Hk & Hcert & Hchk & Hb) Hres.
  unfold run_tls_server, server_body, context_calls, bind_calls.
  step.
  destruct (Z.eqb_spec (ans_ret (s_ctx_new s)) 0); [contradiction|]. cbn [negb queue trace].
  destruct (Z.leb_spec (ans_ret (s_use_key s)) 0); [lia|].
  destruct (Z.leb_spec (ans_ret (s_use_cert s)) 0); [lia|].
  destruct (Z.leb_spec (ans_ret (s_check_key s)) 0); [lia|].
  destruct (Z.eqb_spec (ans_ret (s_new_accept s)) 0); [contradiction|]. cbn [negb queue trace].
  destruct (Z.leb_spec (ans_ret (s_bind s)) 0); [lia|].
  norm. fold (residue s). cbn [queue trace]. rewrite Hres. cbn [Z.eqb negb].
  pose proof (accept_loop_never_returns port es iters
                (mkWorld [] (trace w ++ context_calls key cert ++ bind_calls port))) as N.
  unfold context_calls, bind_calls in N. cbn [app] in N.
  destruct (accept_loop _ _ _ _); [discriminate| |]; split; try reflexivity; intros w';
    try discriminate. now intros [= ->].
Qed.

Ltac count_turns :=
  repeat (progress (rewrite ?turns_call, ?turns_app, ?turns_queue_report, ?turns_message));
  rewrite ?turns_message_other by reflexivity;
  reflexivity.

(** If [run_tls_server] returns, it returns 1, before any turn of the loop,
    for one of five reasons. *)
Lemma run_tls_server_inv port key cert es s iters w exit_code w' :
  run_tls_server port key cert es s iters w = Ret exit_code w' ->
  exit_code = 1 /\ queue w' = [] /\
  (ans_ret (s_use_key s) <= 0 \/ ans_ret (s_use_cert s) <= 0 \/
   ans_ret (s_check_key s) <= 0 \/ ans_ret (s_bind s) <= 0 \/ residue s <> []) /\
  exists evs, trace w' = trace w ++ Call SSL_CTX_new :: evs /\ turns evs = 0%nat.
Proof.
  intros E.
  destruct (Z.eq_dec (ans_ret (s_ctx_new s)) 0) as [Hc|Hc].
  { pose proof (run_tls_server_no_context port key cert es s iters w Hc) as N.
    rewrite E in N. discriminate. }
  destruct (Z.leb_spec (ans_ret (s_use_key s)) 0) as [Hk|Hk].
  { rewrite run_tls_server_key in E by assumption. apply Ret_inj in E as [<- <-].
    repeat split; auto. eexists. split; [reflexivity|].
    cbn [app]. count_turns. }
  destruct (Z.leb_spec (ans_ret (s_use_cert s)) 0) as [Hcert|Hcert].
  { rewrite run_tls_server_cert in E by assumption. apply Ret_inj in E as [<- <-].
    repeat split; auto. eexists. split; [reflexivity|].
    cbn [app]. count_turns. }
  destruct (Z.leb_spec (ans_ret (s_check_key s)) 0) as [Hchk|Hchk].
  { rewrite run_tls_server_check in E by assumption. apply Ret_inj in E as [<- <-].
    repeat split; auto. eexists. split; [reflexivity|].
    cbn [app context_calls].
    count_turns. }
  destruct (Z.eq_dec (ans_ret (s_new_accept s)) 0) as [Hn|Hn].
  { pose proof (run_tls_server_no_accept_bio port key cert es s iters w Hk Hcert Hchk Hn) as N.
    rewrite E in N. discriminate. }
  destruct (Z.leb_spec (ans_ret (s_bind s)) 0) as [Hb|Hb].
  { rewrite run_tls_server_bind in E by (try split; assumption).
    apply Ret_inj in E as [<- <-].
    repeat split; auto 6. eexists. split; [reflexivity|].
    cbn [app context_calls].
    count_turns. }
  destruct (residue s) as [|r q] eqn:Er.
  { destruct (run_tls_server_loop port key cert es s iters w) as [N _];
      [split; assumption | repeat split; assumption | exact Er |].
    rewrite E in N. discriminate. }
  rewrite run_tls_server_residue in E
    by (try rewrite Er; repeat split; try assumption; discriminate).
  apply Ret_inj in E as [<- <-].
  repeat split; auto 6.
  { do 4 right. discriminate. }
  eexists. split; [reflexivity|].
  cbn [app context_calls].
  count_turns.
Qed.

(** ** Lines cut at the capacity of the buffer *)

Example chunks_of_short_room :
  chunks_of 3 ("abcdefgh" ++ nl) = ["abc"; "def"; ("gh" ++ nl)%string].
Proof. reflexivity. Qed.

Example chunks_of_lines :
  chunks_of 8 ("GET /" ++ crnl ++ crnl) = [("GET /" ++ crnl)%string; crnl].
Proof. reflexivity. Qed.

Lemma get_line_prefix room : forall pending,
  get_line room pending = take (String.length (get_line room pending)) pending.
Proof.
  induction room as [|room IH]; intros [|c p]; cbn; try reflexivity.
  destruct (Ascii.eqb c LF); cbn; [reflexivity|]. now rewrite <- IH.
Qed.

Lemma get_line_length room : forall pending,
  (String.length (get_line room pending) <= room)%nat.
Proof.
  induction room as [|room IH]; intros [|c p]; cbn; try lia.
  destruct (Ascii.eqb c LF); cbn; [lia|]. specialize (IH p). lia.
Qed.

(** Of a line, which has its newline at its end if at all, a read stores
    the first [room] bytes. *)
Lemma get_line_take room : forall pending,
  lf_only_last pending = true -> get_line room pending = take room pending.
Proof.
  induction room as [|room IH]; intros [|c p]; cbn; try reflexivity.
  destruct (Ascii.eqb c LF).
  - destruct p; [|discriminate]. intros _. now destruct room.
  - intros H. now rewrite IH.
Qed.

Lemma lf_only_last_take n : forall s,
  lf_only_last s = true -> lf_only_last (take n s) = true.
Proof.
  induction n as [|n IH]; intros [|c s]; cbn; try reflexivity.
  destruct (Ascii.eqb c LF).
  - destruct s; [|discriminate]. intros _. now destruct n.
  - apply IH.
Qed.

Lemma lf_only_last_drop n : forall s,
  lf_only_last s = true -> lf_only_last (drop n s) = true.
Proof.
  induction n as [|n IH]; intros [|c s]; cbn; try reflexivity; try (intros H; exact H).
  destruct (Ascii.eqb c LF).
  - destruct s; [|discriminate]. intros _. now destruct n.
  - apply IH.
Qed.

Lemma take_all n : forall s, drop n s = EmptyString -> take n s = s.
Proof.
  induction n as [|n IH]; intros [|c s]; cbn; try reflexivity; try discriminate.
  intros H. now rewrite IH.
Qed.

Lemma take_full n : forall s, drop n s <> EmptyString -> String.length (take n s) = n.
Proof.
  induction n as [|n IH]; intros [|c s]; cbn; try reflexivity; try contradiction.
  intros H. now rewrite IH.
Qed.

Lemma c_str_append_nul s junk : c_str (s ++ String NUL junk) = c_str s.
Proof.
  induction s as [|c s IH]; cbn; [reflexivity|].
  destruct (Ascii.eqb c NUL); [reflexivity|]. now rewrite IH.
Qed.

(** On what a read has stored of a line, the two [strcmp] of the loop say
    whether it is "\r\n" or "\n". *)
Lemma strcmp_is_blank chunk junk :
  lf_only_last chunk = true ->
  (strcmp (chunk ++ String NUL junk) crnl =? 0) ||
  (strcmp (chunk ++ String NUL junk) nl =? 0) = is_blank chunk.
Proof.
  intros H. unfold is_blank. apply eq_true_iff_eq.
  rewrite !orb_true_iff, !Z.eqb_eq, !strcmp_c_str, !c_str_append_nul, !String.eqb_eq.
  split; (intros [E|E]; [left|right]).
  - now apply c_str_crnl.
  - now apply c_str_nl.
  - now subst.
  - now subst.
Qed.

Lemma is_blank_length chunk : is_blank chunk = true -> (String.length chunk <= 2)%nat.
Proof.
  unfold is_blank. rewrite orb_true_iff, !String.eqb_eq. intros [-> | ->]; cbn; lia.
Qed.

(** One turn of the read loop on a chunk of a line. *)
Lemma read_iteration_chunk es chunk w :
  (0 < String.length chunk)%nat -> lf_only_last chunk = true ->
  read_iteration es (data_step chunk) w =
    Ret (if is_blank chunk then ReadDone else ReadNext)
        (mkWorld (queue w) (trace w ++ chunk_events chunk)).
Proof.
  intros Hlen Hlf. unfold read_iteration, data_step, chunk_events. step.
  cbn [rs_shutdown rs_nbytes rs_buf rs_errs rs_ssl_error].
  change (Z.land 0 SSL_RECEIVED_SHUTDOWN =? SSL_RECEIVED_SHUTDOWN) with false.
  cbn [queue trace].
  destruct (Z.leb_spec (Z.of_nat (String.length chunk)) 0); [lia|].
  step. rewrite Nat2Z.id, take_append, (strcmp_is_blank chunk EmptyString Hlf).
  destruct (is_blank chunk); norm; reflexivity.
Qed.

Lemma chunks_of_nonempty r c p : chunks_of (S r) (String c p) <> [].
Proof. rewrite chunks_of_equation_3. discriminate. Qed.

(** The read loop over the chunks of a line: every chunk is read and
    echoed, and only the last can end the loop. *)
Lemma read_loop_chunks es rest room pending :
  (3 <= room)%nat -> lf_only_last pending = true ->
  forall w,
    read_loop es (map data_step (chunks_of room pending) ++ rest) w =
      (let w' := mkWorld (queue w)
                   (trace w ++ flat_map chunk_events (chunks_of room pending)) in
       if is_blank (last (chunks_of room pending) EmptyString)
       then Ret false w' else read_loop es rest w').
Proof.
  funelim (chunks_of room pending); intros Hroom Hlf w.
  - lia.
  - cbn. destruct w. cbn. now rewrite app_nil_r.
  - set (chunk := get_line (S r) (String c p)) in *.
    set (more := drop (String.length chunk) (String c p)) in *.
    assert (Hchunk : chunk = take (S r) (String c p)) by now apply get_line_take.
    assert (Hlf1 : lf_only_last chunk = true) by (rewrite Hchunk; now apply lf_only_last_take).
    assert (Hlf2 : lf_only_last more = true) by now apply lf_only_last_drop.
    assert (Hpos : (0 < String.length chunk)%nat) by (rewrite Hchunk; cbn; lia).
    cbn [map app read_loop]. unfold bind at 1.
    rewrite (read_iteration_chunk es chunk w Hpos Hlf1).
    destruct more as [|c' p'] eqn:Emore.
    + rewrite chunks_of_equation_2. cbn [map app last flat_map]. cbv zeta.
      rewrite app_nil_r. now destruct (is_blank chunk).
    + assert (Hfull : String.length chunk = S r).
      { rewrite Hchunk. apply take_full. unfold more in Emore.
        rewrite Hchunk in Emore.
        rewrite take_full in Emore.
        - rewrite Emore. discriminate.
        - intros E. apply take_all in E. rewrite E in Emore.
          revert Emore. clear. induction (String c p) as [|a s IH]; cbn;
            [discriminate | exact IH]. }
      destruct (is_blank chunk) eqn:Eb.
      { apply is_blank_length in Eb. lia. }
      rewrite (H es rest Hroom Hlf2). cbv zeta. cbn [queue trace flat_map].
      assert (Hlast : forall (x : string) l, l <> [] -> last (x :: l) EmptyString = last l EmptyString)
        by (intros x [|y l] Hl; [contradiction | reflexivity]).
      rewrite Hlast by apply chunks_of_nonempty.
      now rewrite <- !app_assoc.
Qed.

(** The chunks are the pending input, cut and nothing lost. *)
Lemma chunks_of_join room pending :
  (0 < room)%nat -> fold_right String.append EmptyString (chunks_of room pending) = pending.
Proof.
  funelim (chunks_of room pending); intros Hroom; [lia | reflexivity |].
  cbn [fold_right]. rewrite (H Hroom), get_line_prefix at 1. apply take_drop.
Qed.

Lemma chunks_of_sizes room pending chunk :
  In chunk (chunks_of room pending) -> (0 < String.length chunk <= room)%nat.
Proof.
  funelim (chunks_of room pending); cbn [In]; try contradiction.
  intros [<-|Hin]; [|now apply H].
  split; [|apply get_line_length].
  cbn. destruct (Ascii.eqb c LF); cbn; lia.
Qed.

(** A line longer than the room of a read takes two reads or more. *)
Lemma chunks_of_several room pending :
  (0 < room < String.length pending)%nat -> (2 <= List.length (chunks_of room pending))%nat.
Proof.
  intros [Hroom Hlen]. destruct room as [|r]; [lia|].
  destruct pending as [|c p]; [cbn in Hlen; lia|].
  rewrite chunks_of_equation_3.
  destruct (drop _ (String c p)) as [|c' p'] eqn:E.
  - exfalso. apply take_all in E. rewrite <- get_line_prefix in E.
    pose proof (get_line_length (S r) (String c p)) as L. rewrite E in L. lia.
  - rewrite chunks_of_equation_3. cbn [List.length]. lia.
Qed.

(** ** Reads that do not end the loop *)

Lemma join_assoc w w1 w2 : join (join w w1) w2 = join w (join w1 w2).
Proof. unfold join. cbn. now rewrite !app_assoc. Qed.

(** A script on which the loop never ends is a prefix the loop reads
    through: it goes on with what follows, having written nothing to the
    peer. *)
Lemma read_loop_continues es prefix :
  reads_end prefix = None ->
  exists w0,
    wrote (trace w0) = [] /\
    forall more w, read_loop es (prefix ++ more) w = read_loop es more (join w w0).
Proof.
  induction prefix as [|s prefix IH]; intros Hend.
  - exists boot. split; [reflexivity|]. intros more w. now rewrite join_boot.
  - destruct (read_iteration_ret es s boot) as (r & w1 & E & E0).
    destruct (ctl_of_Ret _ _ E0) as [w1' E0'].
    assert (Hnext : r = ReadNext /\ reads_end prefix = None).
    { unfold reads_end in Hend. cbn [read_loop] in Hend. unfold bind in Hend.
      rewrite E0' in Hend. destruct r; try discriminate.
      split; [reflexivity|]. now rewrite read_loop_ctl in Hend. }
    destruct Hnext as [-> Hend']. destruct (IH Hend') as (w0 & Hw0 & Hgo).
    destruct (read_iteration_events _ _ _ _ E) as (Hw1 & _).
    exists (join w1 w0). split.
    + unfold join. cbn [trace]. now rewrite wrote_app, Hw1, Hw0.
    + intros more w. cbn [app read_loop]. unfold bind.
      rewrite read_iteration_frame, E. cbn [shift]. rewrite Hgo. now rewrite join_assoc.
Qed.

(** * The reads of a request and the turns of the loop, by what the calls
    answer *)

Lemma read_iteration_flag es s w :
  shutdown_flag s ->
  read_iteration es s w = Ret ReadDone (mkWorld (queue w) (trace w ++ [Call SSL_get_shutdown])).
Proof.
  unfold shutdown_flag, read_iteration. intros H. step.
  rewrite received_shutdown_bit, H. now rewrite app_nil_r.
Qed.

Lemma strcmp_blank s :
  get_line_contract s -> 0 < rs_nbytes s ->
  (strcmp (rs_buf s) crnl =? 0) || (strcmp (rs_buf s) nl =? 0) = true <->
  line_read s = crnl \/ line_read s = nl.
Proof.
  intros C Hn. destruct (C Hn) as (Hnul & Hlf).
  rewrite orb_true_iff, !Z.eqb_eq, !strcmp_c_str, (c_str_take _ _ Hnul).
  fold (line_read s). split.
  - intros [H|H]; [left; now apply c_str_crnl | right; now apply c_str_nl].
  - intros [->| ->]; [left | right]; reflexivity.
Qed.


(** A read that fails otherwise. *)
Lemma read_iteration_error es s w :
  Z.testbit (rs_shutdown s) 1 = false -> rs_nbytes s <= 0 ->
  rs_ssl_error s <> SSL_ERROR_ZERO_RETURN ->
  read_iteration es s w =
    Ret ReadFailure
      (mkWorld (queue w ++ rs_errs s)
         (trace w ++
          [Call SSL_get_shutdown; Call (BIO_get_line BUF_SIZE);
           Call (SSL_get_error (rs_nbytes s))] ++
          message es ("Error %i while reading data from the client" ++ nl)
            [ArgI (rs_ssl_error s)])).
Proof.
  intros B Hn He. unfold read_iteration. step. rewrite received_shutdown_bit, B.
  cbn [queue trace]. destruct (Z.leb_spec (rs_nbytes s) 0); [|lia]. step.
  destruct (Z.eqb_spec (rs_ssl_error s) SSL_ERROR_ZERO_RETURN); [contradiction|].
  destruct es; step; norm; reflexivity.
Qed.

(** The handler does from any world what it does from [boot]: it clears the
    queue before its first call. *)
Lemma handle_accepted_connection_from_boot c es w exit_code w' :
  handle_accepted_connection c es boot = Ret exit_code w' ->
  handle_accepted_connection c es w = Ret exit_code (mkWorld [] (trace w ++ trace w')).
Proof.
  destruct (c_in_buf c) eqn:Hbuf.
  2:{ intros E. pose proof (handle_accepted_connection_no_buffer c es boot Hbuf) as N.
      rewrite E in N. discriminate. }
  rewrite (handle_accepted_connection_spec c es w Hbuf),
    (handle_accepted_connection_spec c es boot Hbuf).
  destruct (connection_body c es boot) as [failed w0|w0|w0]; try discriminate.
  cbv zeta. intros E. apply Ret_inj in E as [<- <-]. reflexivity.
Qed.

Lemma diagnostics_app t1 t2 : diagnostics (t1 ++ t2) = diagnostics t1 ++ diagnostics t2.
Proof. apply filter_app. Qed.

Lemma read_iteration_goes_on es s w :
  goes_on s ->
  read_iteration es s w =
    Ret ReadNext (mkWorld (queue w ++ rs_errs s) (trace w ++ read_events s)).
Proof.
  intros (Hf & C & Hn & H1 & H2). unfold read_iteration, read_events. step.
  rewrite received_shutdown_bit. unfold shutdown_flag in Hf.
  destruct (Z.testbit (rs_shutdown s) 1); [congruence|]. cbn [queue trace].
  destruct (Z.leb_spec (rs_nbytes s) 0); [lia|]. step.
  pose proof (strcmp_blank s C Hn) as Hb.
  destruct ((strcmp (rs_buf s) crnl =? 0) || (strcmp (rs_buf s) nl =? 0)).
  - exfalso. destruct (proj1 Hb eq_refl); contradiction.
  - unfold line_read. norm. reflexivity.
Qed.

Lemma read_iteration_fails es s w :
  read_fails s ->
  read_iteration es s w =
    Ret ReadFailure
      (mkWorld (queue w ++ rs_errs s)
         (trace w ++
          [Call SSL_get_shutdown; Call (BIO_get_line BUF_SIZE);
           Call (SSL_get_error (rs_nbytes s))] ++
          message es ("Error %i while reading data from the client" ++ nl)
            [ArgI (rs_ssl_error s)])).
Proof.
  intros (Hf & Hn & He). apply read_iteration_error; try assumption.
  unfold shutdown_flag in Hf. now destruct (Z.testbit (rs_shutdown s) 1).
Qed.

(** One evaluation of the loop test and body ends the loop normally exactly
    when the request ends at the read. *)
Lemma read_iteration_done_iff es s w :
  get_line_contract s ->
  (exists w', read_iteration es s w = Ret ReadDone w') <-> ends_request s.
Proof.
  intros C. unfold read_iteration. step. rewrite received_shutdown_bit.
  unfold ends_request, shutdown_flag, zero_return, blank_line.
  destruct (Z.testbit (rs_shutdown s) 1) eqn:B.
  { split; [intros _; now left; left | intros _; eexists; reflexivity]. }
  cbn [queue trace]. destruct (Z.leb_spec (rs_nbytes s) 0) as [Hn|Hn].
  - step. destruct (Z.eqb_spec (rs_ssl_error s) SSL_ERROR_ZERO_RETURN) as [E|E].
    + split; [intros _; left; right; now split | intros _; eexists; reflexivity].
    + split.
      * intros [w' H]. destruct es; discriminate.
      * intros [[H|[_ H]]|[H _]]; [discriminate | contradiction | lia].
  - step. pose proof (strcmp_blank s C Hn) as Hb.
    destruct ((strcmp (rs_buf s) crnl =? 0) || (strcmp (rs_buf s) nl =? 0)).
    + split; [intros _; right; split; [lia | now apply Hb] | intros _; eexists; reflexivity].
    + split; [intros [w' H]; discriminate|].
      intros [[H|[H _]]|[_ H]]; [discriminate | lia |].
      apply Hb in H. discriminate.
Qed.

(** A read goes on, ends the request, or fails. *)
Lemma read_kinds s :
  get_line_contract s -> goes_on s \/ ends_request s \/ read_fails s.
Proof.
  intros C. unfold goes_on, ends_request, read_fails, shutdown_flag, zero_return, blank_line.
  destruct (Z.testbit (rs_shutdown s) 1) eqn:B; [now right; left; left; left|].
  destruct (Z.leb_spec (rs_nbytes s) 0) as [Hn|Hn].
  - destruct (Z.eq_dec (rs_ssl_error s) SSL_ERROR_ZERO_RETURN) as [E|E].
    + right. left. left. right. now split.
    + right. right. split; [discriminate|]. split; assumption.
  - destruct (string_dec (line_read s) crnl) as [E1|E1]; [now right; left; right; auto|].
    destruct (string_dec (line_read s) nl) as [E2|E2]; [now right; left; right; auto|].
    left. split; [discriminate|]. split; [exact C|]. split; [exact Hn|]. split; assumption.
Qed.

Lemma goes_on_not_ends s : goes_on s -> ~ ends_request s.
Proof.
  unfold goes_on, ends_request, zero_return, blank_line.
  intros (Hf & _ & Hn & H1 & H2) [[H|[H _]]|[_ [H|H]]]; auto; lia.
Qed.

Lemma read_fails_not_ends s : read_fails s -> ~ ends_request s.
Proof.
  unfold read_fails, ends_request, zero_return, blank_line.
  intros (Hf & Hn & He) [[H|[_ H]]|[H _]]; auto; lia.
Qed.

Lemma after_reads_app p q w : after_reads (p ++ q) w = after_reads q (after_reads p w).
Proof.
  unfold after_reads, reads_errs. cbn [queue trace].
  now rewrite !flat_map_app, !app_assoc.
Qed.

Lemma after_reads_one s w :
  after_reads [s] w = mkWorld (queue w ++ rs_errs s) (trace w ++ read_events s).
Proof. unfold after_reads, reads_errs. cbn [flat_map]. now rewrite !app_nil_r. Qed.

(** After reads that each stored a line the loop is at the next read. *)
Lemma read_loop_goes_on es prefix :
  Forall goes_on prefix ->
  forall more w, read_loop es (prefix ++ more) w = read_loop es more (after_reads prefix w).
Proof.
  induction 1 as [|s prefix Hs _ IH]; intros more w.
  - unfold after_reads, reads_errs. cbn. rewrite !app_nil_r. now destruct w.
  - cbn [app read_loop]. unfold bind. rewrite (read_iteration_goes_on es s w Hs), IH.
    rewrite <- after_reads_one. now rewrite <- after_reads_app.
Qed.

Lemma read_loop_ends es prefix s rest w :
  Forall goes_on prefix -> get_line_contract s -> ends_request s ->
  exists w1,
    read_iteration es s (after_reads prefix w) = Ret ReadDone w1 /\
    read_loop es (prefix ++ s :: rest) w = Ret false w1.
Proof.
  intros Hp C He.
  destruct (proj2 (read_iteration_done_iff es s (after_reads prefix w) C) He) as [w1 E].
  exists w1. split; [exact E|]. rewrite (read_loop_goes_on es prefix Hp).
  cbn [read_loop]. unfold bind. now rewrite E.
Qed.

Lemma read_loop_fails es prefix s rest w :
  Forall goes_on prefix -> read_fails s ->
  read_loop es (prefix ++ s :: rest) w =
    Ret true
      (mkWorld (queue w ++ reads_errs prefix ++ rs_errs s)
         (trace w ++ flat_map read_events prefix ++
          [Call SSL_get_shutdown; Call (BIO_get_line BUF_SIZE);
           Call (SSL_get_error (rs_nbytes s))] ++
          message es ("Error %i while reading data from the client" ++ nl)
            [ArgI (rs_ssl_error s)])).
Proof.
  intros Hp Hf. rewrite (read_loop_goes_on es prefix Hp).
  cbn [read_loop]. unfold bind. rewrite (read_iteration_fails es s _ Hf).
  unfold ret, after_reads. cbn [queue trace]. now rewrite <- !app_assoc.
Qed.






(** * The specification, claim by claim *)

Local Open Scope list_scope.
Local Open Scope Z_scope.

(** ** C1: the argument count *)

Lemma main_three_or_four argv s iters w :
  (List.length argv = 3 \/ List.length argv = 4)%nat ->
  main argv s iters w =
    (err <- run_tls_server (arg argv 1) (arg argv 2) (arg argv 3) (Some stderr) s iters ;;
     if negb (err =? 0) then
       fprintf stderr ("TLS communication failed" ++ nl) [] ;; ret 1
     else
       fprintf stderr ("TLS communication succeeded" ++ nl) [] ;; ret 0)%prog w.
Proof. unfold main. intros [-> | ->]; reflexivity. Qed.

(** The usage message and nothing else, with exit code 1, exactly when
    [argc] is neither 3 nor 4. *)
Lemma main_usage_iff argv s iters :
  main argv s iters boot = Ret 1 (mkWorld [] [Fprintf stderr usage [ArgS (arg argv 0)]]) <->
  (List.length argv <> 3 /\ List.length argv <> 4)%nat.
Proof.
  split.
  - intros E.
    destruct (Nat.eq_dec (List.length argv) 3) as [H|H3];
      [|destruct (Nat.eq_dec (List.length argv) 4) as [H|H4]; [|now split]];
      exfalso; rewrite main_three_or_four in E by auto; unfold bind at 1 in E;
      destruct (run_tls_server _ _ _ _ _ _ _) as [code w'|w'|w'] eqn:R; try discriminate;
      destruct (run_tls_server_inv _ _ _ _ _ _ _ _ _ R) as (-> & _ & _ & evs & Ht & _);
      cbn in E; apply Ret_inj in E as [_ E]; apply (f_equal trace) in E; cbn in E, Ht;
      rewrite Ht in E; discriminate.
  - intros [H3 H4]. unfold main.
    destruct (Z.eqb_spec (Z.of_nat (List.length argv)) 3); [lia|].
    destruct (Z.eqb_spec (Z.of_nat (List.length argv)) 4); [lia|].
    reflexivity.
Qed.

(** C1, on the code.  With two arguments after the program name ([argc] is
    3) the test [argc != 3 && argc != 4] lets the program through: whatever
    the libraries answer it does not end as the usage error that a wrong
    argument count should give.  It runs the server with the NULL pointer
    [argv[3]] for the certificate chain file: in the run below the context
    is created and the key loaded before the load of the chain from NULL
    fails. *)
Theorem main_two_arguments_no_usage :
  (forall prog port key s iters,
     main [prog; port; key] s iters boot <>
       Ret 1 (mkWorld [] [Fprintf stderr usage [ArgS (Some prog)]])) /\
  main ["tls-server"; "4433"; "server_keypair.pem"] no_chain_setup [] boot =
    Ret 1 (mkWorld []
      [Call SSL_CTX_new;
       Call (SSL_CTX_use_PrivateKey_file (Some "server_keypair.pem") SSL_FILETYPE_PEM);
       Call (SSL_CTX_use_certificate_chain_file None);
       Fprintf stderr ("Could not load server certificate chain from file %s" ++ nl)
         [ArgS None];
       Call SSL_CTX_free;
       Fprintf stderr ("TLS communication failed" ++ nl) []]).
Proof.
  split; [|reflexivity].
  intros prog port key s iters E.
  apply (main_usage_iff [prog; port; key] s iters) in E. cbn in E. lia.
Qed.

(** ** C2: what ends the accept loop *)



(** ** C3: how the read loop ends *)

(** C3. The loop test and body, and the loop.  The shutdown flag is tested
    first and ends the loop before any read; one evaluation ends the loop
    normally exactly when the peer's clean shutdown has been seen (the flag,
    or a non-positive read that SSL_get_error explains as
    SSL_ERROR_ZERO_RETURN) or the line just read is exactly "\r\n" or "\n";
    a non-positive read without a shutdown signal is [goto failure], after a
    report to the error stream that carries the code of SSL_get_error.  So
    for the loop, after any number of reads that each stored a line other
    than the empty line: if the next read stores such a line too the loop
    goes on to the read after it; if the request ends at it the loop ends
    normally there, in the world that evaluation leaves, and reads nothing
    more; with nothing after it in the script the loop ends normally exactly
    when the request ends at it; and if it fails the loop ends by
    [goto failure] there, and the handler writes no response and returns 1. *)
Theorem read_loop_exit_conditions es s w :
  get_line_contract s ->
  (shutdown_flag s ->
     read_iteration es s w =
       Ret ReadDone (mkWorld (queue w) (trace w ++ [Call SSL_get_shutdown]))) /\
  ((exists w', read_iteration es s w = Ret ReadDone w') <->
     (shutdown_flag s \/ zero_return s) \/ blank_line s) /\
  (~ shutdown_flag s -> rs_nbytes s <= 0 -> rs_ssl_error s <> SSL_ERROR_ZERO_RETURN ->
     read_iteration es s w =
       Ret ReadFailure
         (mkWorld (queue w ++ rs_errs s)
            (trace w ++
               [Call SSL_get_shutdown; Call (BIO_get_line BUF_SIZE);
                Call (SSL_get_error (rs_nbytes s))] ++
               message es ("Error %i while reading data from the client" ++ nl)
                 [ArgI (rs_ssl_error s)]))) /\
  (forall prefix rest,
     Forall goes_on prefix ->
     (goes_on s ->
        read_loop es (prefix ++ s :: rest) w =
        read_loop es rest (after_reads (prefix ++ [s]) w)) /\
     ((shutdown_flag s \/ zero_return s) \/ blank_line s ->
        exists w1,
          read_iteration es s (after_reads prefix w) = Ret ReadDone w1 /\
          read_loop es (prefix ++ s :: rest) w = Ret false w1) /\
     ((exists w1, read_loop es (prefix ++ [s]) w = Ret false w1) <->
        (shutdown_flag s \/ zero_return s) \/ blank_line s) /\
     (~ shutdown_flag s -> rs_nbytes s <= 0 -> rs_ssl_error s <> SSL_ERROR_ZERO_RETURN ->
        read_loop es (prefix ++ s :: rest) w =
          Ret true
            (mkWorld (queue w ++ reads_errs prefix ++ rs_errs s)
               (trace w ++ flat_map read_events prefix ++
                [Call SSL_get_shutdown; Call (BIO_get_line BUF_SIZE);
                 Call (SSL_get_error (rs_nbytes s))] ++
                message es ("Error %i while reading data from the client" ++ nl)
                  [ArgI (rs_ssl_error s)])) /\
        forall c,
          conn_allocated c -> 0 < ans_ret (c_handshake c) ->
          c_reads c = prefix ++ s :: rest ->
          exists w' evs,
            handle_accepted_connection c es w = Ret 1 w' /\
            trace w' = trace w ++ evs /\ wrote evs = [] /\
            incl (message es ("Error %i while reading data from the client" ++ nl)
                    [ArgI (rs_ssl_error s)]) evs)).
Proof.
  intros C. split; [apply read_iteration_flag|].
  split; [apply (read_iteration_done_iff es s w C)|].
  split; [intros Hf Hn He; apply read_iteration_fails; repeat split; assumption|].
  intros prefix rest Hp. split; [|split; [|split]].
  - intros Hs.
    change (prefix ++ s :: rest) with (prefix ++ [s] ++ rest). rewrite app_assoc.
    apply read_loop_goes_on. apply Forall_app. split; [exact Hp | now constructor].
  - intros He. now apply read_loop_ends.
  - split.
    + intros [w1 E]. destruct (read_kinds s C) as [Hs|[He|Hf]]; [|exact He|].
      * rewrite <- (app_nil_r (prefix ++ [s])) in E.
        rewrite (read_loop_goes_on es (prefix ++ [s])) in E.
        -- discriminate.
        -- apply Forall_app. split; [exact Hp | now constructor].
      * rewrite (read_loop_fails es prefix s [] w Hp Hf) in E. discriminate.
    + intros He. destruct (read_loop_ends es prefix s [] w Hp C He) as (w1 & _ & E).
      now exists w1.
  - intros Hf Hn He.
    assert (F : read_fails s) by (repeat split; assumption).
    split; [now apply read_loop_fails|].
    intros c (Hbuf & Hg & Hs) Hh Hreads.
    pose proof (read_loop_fails es prefix s rest boot Hp F) as R.
    rewrite <- Hreads in R.
    match type of R with _ = Ret true ?W => set (w1 := W) in R end.
    destruct (read_loop_events _ _ _ _ R) as (Hw & _).
    rewrite (handle_accepted_connection_spec c es w Hbuf).
    rewrite (connection_body_reads c es true _ Hh Hg Hs R).
    cbv zeta. cbn [queue trace].
    eexists _, _. split; [f_equal; now destruct (_ ++ ans_errs (c_free c))|].
    cbn [trace]. split; [reflexivity|]. split.
    + autorewrite with traces. now rewrite Hw.
    + subst w1. cbn [trace]. intros e He'. repeat (rewrite in_app_iff || cbn [In]). tauto.
Qed.

(** ** C4: a bare newline as the first line *)



(** ** C5: the order of the context construction *)

Lemma main_four_arguments prog port key cert s iters w :
  main [prog; port; key; cert] s iters w =
    (err <- run_tls_server (Some port) (Some key) (Some cert) (Some stderr) s iters ;;
     if negb (err =? 0) then
       fprintf stderr ("TLS communication failed" ++ nl) [] ;; ret 1
     else
       fprintf stderr ("TLS communication succeeded" ++ nl) [] ;; ret 0)%prog w.
Proof. reflexivity. Qed.

(** C5. Started with its three arguments, the program loads the key, then
    the certificate chain, then checks that they match.  The first of the
    three that fails ends the construction: its own message goes to stderr,
    the calls made are those up to the failing one and the release of the
    context, no call binds or listens, and the process exits with 1. *)
Theorem context_construction_in_order prog port key cert s iters :
  ans_ret (s_ctx_new s) <> 0 ->
  (ans_ret (s_use_key s) <= 0 ->
   exists w',
     main [prog; port; key; cert] s iters boot = Ret 1 w' /\
     lib_calls (trace w') =
       [SSL_CTX_new; SSL_CTX_use_PrivateKey_file (Some key) SSL_FILETYPE_PEM;
        SSL_CTX_free] /\
     In (Fprintf stderr ("Could not load server keypair from file %s" ++ nl)
           [ArgS (Some key)]) (trace w')) /\
  (0 < ans_ret (s_use_key s) -> ans_ret (s_use_cert s) <= 0 ->
   exists w',
     main [prog; port; key; cert] s iters boot = Ret 1 w' /\
     lib_calls (trace w') =
       [SSL_CTX_new; SSL_CTX_use_PrivateKey_file (Some key) SSL_FILETYPE_PEM;
        SSL_CTX_use_certificate_chain_file (Some cert); SSL_CTX_free] /\
     In (Fprintf stderr ("Could not load server certificate chain from file %s" ++ nl)
           [ArgS (Some cert)]) (trace w')) /\
  (0 < ans_ret (s_use_key s) -> 0 < ans_ret (s_use_cert s) ->
   ans_ret (s_check_key s) <= 0 ->
   exists w',
     main [prog; port; key; cert] s iters boot = Ret 1 w' /\
     lib_calls (trace w') =
       [SSL_CTX_new; SSL_CTX_use_PrivateKey_file (Some key) SSL_FILETYPE_PEM;
        SSL_CTX_use_certificate_chain_file (Some cert); SSL_CTX_check_private_key;
        SSL_CTX_free] /\
     In (Fprintf stderr ("Server keypair does not match server certificate" ++ nl) [])
        (trace w')).
Proof.
  intros Hc. repeat split; intros; rewrite main_four_arguments; unfold bind at 1.
  - rewrite run_tls_server_key by assumption. step. eexists. split; [reflexivity|].
    cbn [trace message]. autorewrite with traces.
    split; [reflexivity|]. cbn. auto.
  - rewrite run_tls_server_cert by assumption. step. eexists. split; [reflexivity|].
    cbn [trace message]. autorewrite with traces.
    split; [reflexivity|]. cbn. auto.
  - rewrite run_tls_server_check by assumption. step. eexists. split; [reflexivity|].
    cbn [trace message]. autorewrite with traces.
    split; [reflexivity|]. cbn. auto 6.
Qed.

(** ** C6: a short write *)

(** C6. A connection that reaches the write (handshake done, read loop
    ended normally) and whose BIO_write returns anything but the length of
    the response: the handler reports the short write on the error stream,
    calls BIO_write that once and never again, makes no further call on the
    connection but the two that release it (BIO_free_all and free), leaves
    the error queue empty and returns 1; and the turn of the accept loop
    that handled the connection comes back to the loop. *)
Theorem short_write_fails_and_releases c es w :
  conn_allocated c ->
  0 < ans_ret (c_handshake c) ->
  reads_end (c_reads c) = Some false ->
  ans_ret (c_write c) <> response_length ->
  (exists w' before after,
     handle_accepted_connection c es w = Ret 1 w' /\
     queue w' = [] /\
     trace w' = trace w ++ before ++ [Call (BIO_write response response_length)] ++
                message es ("Could not send data all to the client" ++ nl) [] ++ after /\
     wrote before = [] /\
     lib_calls after = [BIO_free_all ssl_bio; free]) /\
  (forall port it w0,
     i_conn it = c -> 0 < ans_ret (i_accept it) ->
     ans_ret (i_pop it) <> 0 -> ans_ret (i_new_ssl it) <> 0 ->
     exists w1, accept_iteration port es it w0 = Ret tt w1).
Proof.
  intros (Hbuf & Hg & Hs) Hh Hr Hw. split.
  2:{ intros port it w0 <- Ha Hp Hn. apply accept_iteration_returns.
      - intros _. repeat split; auto.
      - intros _ _. rewrite Hr. discriminate. }
  destruct (read_loop_Ret es _ _ boot Hr) as [w1 E1].
  destruct (read_loop_events _ _ _ _ E1) as (Hw1 & _).
  rewrite (handle_accepted_connection_spec c es w Hbuf).
  rewrite (connection_body_reads c es false w1 Hh Hg Hs E1). cbv zeta.
  destruct (Z.eqb_spec (ans_ret (c_write c)) response_length) as [|_]; [contradiction|].
  cbn [queue trace].
  set (q := (_ ++ ans_errs (c_free c))).
  exists (mkWorld [] (trace w ++ [Call (malloc BUF_SIZE)] ++
            ((receiving ++ trace w1) ++ sending ++
             message es ("Could not send data all to the client" ++ nl) []) ++
            release ++ queue_report es q)),
    ([Call (malloc BUF_SIZE)] ++ receiving ++ trace w1 ++
     [Fprintf stdout ("*** Receiving from the client finished" ++ nl) [];
      Fprintf stdout ("*** Sending to the client:" ++ nl) [];
      Fprintf stdout "%s" [ArgS (Some response)]]),
    (release ++ queue_report es q).
  repeat split.
  - f_equal. now destruct q.
  - cbn [trace]. unfold sending. frame.
  - autorewrite with traces. now rewrite Hw1.
  - autorewrite with traces. reflexivity.
Qed.

(** ** C7: the error queue before the loop and after each turn *)



(** ** C8: the shutdown *)

(** C8, where it fails.  Two connections that differ only in the shutdown:
    where it goes well the handler returns 0; where it fails and leaves its
    reason on the error queue the handler returns 1, the code of a failed
    connection. *)
Lemma shutdown_error_fails_connection :
  handle_accepted_connection hello_conn (Some stderr) boot =
    Ret 0 (mkWorld []
      ([Call (malloc BUF_SIZE)] ++ receiving ++
       [Call SSL_get_shutdown; Call (BIO_get_line BUF_SIZE); Fwrite stdout nl] ++
       sending ++ closing ++ release)) /\
  handle_accepted_connection shutdown_error_conn (Some stderr) boot =
    Ret 1 (mkWorld []
      ([Call (malloc BUF_SIZE)] ++ receiving ++
       [Call SSL_get_shutdown; Call (BIO_get_line BUF_SIZE); Fwrite stdout nl] ++
       sending ++ closing ++ release ++
       [Fprintf stderr ("Errors from the OpenSSL error queue:" ++ nl) [];
        PrintErrors stderr [shutdown_record]])).
Proof. split; reflexivity. Qed.

(** C8, amended.  A connection that reaches the shutdown (handshake done,
    request read, response accepted in full).  The handler calls
    BIO_ssl_shutdown once and does not look at its result: no failure branch
    is taken and no message printed for it.  What decides the exit code is
    the error queue at the cleanup: the records the calls since the start
    of the handler have left, those of the shutdown among them.  With none
    the handler returns 0; otherwise it prints them, clears the queue and
    returns 1. *)
Theorem shutdown_unchecked_queue_decides c es w :
  conn_allocated c ->
  0 < ans_ret (c_handshake c) ->
  reads_end (c_reads c) = Some false ->
  ans_ret (c_write c) = response_length ->
  exists w1,
    read_loop es (c_reads c) boot = Ret false w1 /\
    let pending :=
      ans_errs (c_handshake c) ++ ans_errs (c_get_ssl c) ++ queue w1 ++
      ans_errs (c_write c) ++ ans_errs (c_shutdown c) ++ ans_errs (c_free c) in
    handle_accepted_connection c es w =
      Ret (match pending with [] => 0 | _ :: _ => 1 end)
          (mkWorld []
             (trace w ++ [Call (malloc BUF_SIZE)] ++ receiving ++ trace w1 ++
              sending ++ closing ++ release ++ queue_report es pending)).
Proof.
  intros (Hbuf & Hg & Hs) Hh Hr Hw.
  destruct (read_loop_Ret es _ _ boot Hr) as [w1 E1]. exists w1. split; [exact E1|].
  rewrite (handle_accepted_connection_spec c es w Hbuf).
  rewrite (connection_body_reads c es false w1 Hh Hg Hs E1). cbv zeta.
  rewrite Hw, Z.eqb_refl. cbn [queue trace]. unfold release. norm. reflexivity.
Qed.

(** ** C9: no record of one connection in the report of the next *)

Lemma handle_accepted_connection_forgets c es q t :
  c_in_buf c = true ->
  handle_accepted_connection c es (mkWorld q t) =
  handle_accepted_connection c es (mkWorld [] t).
Proof.
  intros Hbuf. now rewrite !(handle_accepted_connection_spec c es _ Hbuf).
Qed.

(** C9. Two turns of the accept loop, one after the other.  The first
    leaves the error queue empty, so does the second, and every record the
    second prints was queued by one of its own calls.  Besides, a handler
    that has its buffer clears the queue before anything else: what it does
    does not depend on the queue it is entered with. *)
Theorem diagnostics_do_not_leak port es itK itK1 w wK wK1 :
  accept_iteration port es itK w = Ret tt wK ->
  accept_iteration port es itK1 wK = Ret tt wK1 ->
  queue wK = [] /\ queue wK1 = [] /\
  (exists evs, trace wK1 = trace wK ++ evs /\ incl (reported evs) (iter_errs itK1)) /\
  (forall c q t, c_in_buf c = true ->
     handle_accepted_connection c es (mkWorld q t) =
     handle_accepted_connection c es (mkWorld [] t)).
Proof.
  intros EK EK1.
  destruct (accept_iteration_inv _ _ _ _ _ EK) as (HqK & _).
  destruct (accept_iteration_inv _ _ _ _ _ EK1) as (HqK1 & evs & Ht & _ & Hr & _).
  rewrite HqK in Hr. cbn [app] in Hr.
  repeat split; auto.
  - now exists evs.
  - intros c q t. apply handle_accepted_connection_forgets.
Qed.

(** ** C10: a line longer than the buffer *)

(** C10, where it fails.  A line of 16383 bytes and its "\r\n" is one byte
    longer than the buffer.  The first read stores the 16383 bytes, the
    second the "\r\n" that is left, and that ends the read loop as an empty
    line would: the line the peer sends next is never read. *)
Lemma overlong_line_ends_request :
  lf_only_last long_line = true /\
  BUF_SIZE < Z.of_nat (String.length long_line) /\
  chunks_of capacity long_line = [fill capacity "a"; crnl] /\
  reads_end (map data_step (chunks_of capacity long_line) ++
             [data_step ("Host: example.org" ++ crnl)]) = Some false /\
  reads_end [data_step ("Host: example.org" ++ crnl)] = None.
Proof. repeat split; vm_compute; reflexivity. Qed.

(** C10, amended.  A line longer than the 16 KiB buffer is read in two or
    more reads, each of at least one byte and at most 16383, that together
    store the whole line; every chunk is written to stdout; a chunk that
    fills the room of a read is neither "\r\n" nor "\n"; no read fails.
    After the line the loop goes on, unless the last chunk, what is left of
    the line after the full ones, is itself "\r\n" or "\n": then the loop
    ends as on an empty line. *)
Theorem overlong_line_is_read_in_chunks line rest es w :
  lf_only_last line = true ->
  BUF_SIZE < Z.of_nat (String.length line) ->
  let chunks := chunks_of capacity line in
  (2 <= List.length chunks)%nat /\
  fold_right String.append EmptyString chunks = line /\
  (forall chunk, In chunk chunks ->
     (0 < String.length chunk <= capacity)%nat /\
     (String.length chunk = capacity -> is_blank chunk = false)) /\
  read_loop es (map data_step chunks ++ rest) w =
    (let w' := mkWorld (queue w) (trace w ++ flat_map chunk_events chunks) in
     if is_blank (last chunks EmptyString) then Ret false w' else read_loop es rest w').
Proof.
  intros Hlf Hlen chunks.
  assert (Hcap : (3 <= capacity)%nat) by (vm_compute; lia).
  assert (Hnat : (capacity < String.length line)%nat).
  { assert (Z.of_nat capacity < BUF_SIZE) by (vm_compute; reflexivity). lia. }
  split; [apply chunks_of_several; lia|].
  split; [apply chunks_of_join; lia|].
  split; [|now apply read_loop_chunks].
  intros chunk Hin. split; [now apply (chunks_of_sizes capacity line)|].
  intros Hfull. destruct (is_blank chunk) eqn:Eb; [|reflexivity].
  apply is_blank_length in Eb. lia.
Qed.

(** * The theorems at concrete scripts *)

Local Open Scope list_scope.
Local Open Scope Z_scope.

(** C3 at a request line followed by the empty line: the contract holds,
    the loop ends normally at the second read and the third is not made. *)
Lemma read_loop_exit_conditions_witness :
  get_line_contract (data_step crnl) /\
  Forall goes_on [data_step ("GET / HTTP/1.0" ++ crnl)] /\
  exists w1,
    read_iteration (Some stderr) (data_step crnl)
      (after_reads [data_step ("GET / HTTP/1.0" ++ crnl)] boot) = Ret ReadDone w1 /\
    read_loop (Some stderr)
      ([data_step ("GET / HTTP/1.0" ++ crnl)] ++
       data_step crnl :: [data_step ("never read" ++ nl)]) boot = Ret false w1.
Proof.
  assert (C : get_line_contract (data_step crnl)).
  { intros _. split; vm_compute; reflexivity. }
  assert (G : Forall goes_on [data_step ("GET / HTTP/1.0" ++ crnl)]).
  { constructor; [|constructor].
    split; [intros H; vm_compute in H; discriminate|].
    split; [intros _; split; vm_compute; reflexivity|].
    split; [reflexivity|].
    split; intros H; vm_compute in H; discriminate. }
  split; [exact C|]. split; [exact G|].
  apply (proj1 (proj2 (proj2 (proj2 (proj2
           (read_loop_exit_conditions (Some stderr) (data_step crnl) boot C)))
           [data_step ("GET / HTTP/1.0" ++ crnl)] [data_step ("never read" ++ nl)] G))).
  right. split; [reflexivity | left; reflexivity].
Defined.


(** C5 at a key file that cannot be read: the context is created, the key
    load fails, the context is released, and that is all. *)
Lemma context_construction_in_order_witness :
  ans_ret (s_ctx_new no_key_setup) <> 0 /\
  ans_ret (s_use_key no_key_setup) <= 0 /\
  exists w',
    main ["tls-server"; "4433"; "key.pem"; "chain.pem"] no_key_setup [] boot = Ret 1 w' /\
    lib_calls (trace w') =
      [SSL_CTX_new; SSL_CTX_use_PrivateKey_file (Some "key.pem") SSL_FILETYPE_PEM;
       SSL_CTX_free].
Proof.
  assert (Hc : ans_ret (s_ctx_new no_key_setup) <> 0) by (vm_compute; discriminate).
  assert (Hk : ans_ret (s_use_key no_key_setup) <= 0) by (vm_compute; discriminate).
  split; [exact Hc|]. split; [exact Hk|].
  destruct (proj1 (context_construction_in_order "tls-server" "4433" "key.pem" "chain.pem"
                     no_key_setup [] Hc) Hk) as (w' & E & Hcalls & _).
  now exists w'.
Defined.

(** C6 at a channel that takes 60 of the 119 bytes. *)
Lemma short_write_fails_and_releases_witness :
  exists w', handle_accepted_connection short_write_conn (Some stderr) boot = Ret 1 w' /\
             queue w' = [].
Proof.
  destruct (short_write_fails_and_releases short_write_conn (Some stderr) boot)
    as [(w' & before & after & E & Hq & _) _].
  - repeat split.
  - reflexivity.
  - reflexivity.
  - vm_compute. discriminate.
  - now exists w'.
Defined.



(** C8 at a shutdown that leaves a record: it is printed, and the handler
    returns 1. *)
Lemma shutdown_unchecked_queue_decides_witness :
  exists w',
    handle_accepted_connection shutdown_error_conn (Some stderr) boot = Ret 1 w' /\
    reported (trace w') = [shutdown_record].
Proof.
  destruct (shutdown_unchecked_queue_decides shutdown_error_conn (Some stderr) boot)
    as (w1 & E1 & E).
  - repeat split.
  - reflexivity.
  - reflexivity.
  - reflexivity.
  - apply Ret_inj in E1 as [_ <-]. eexists. split; [exact E | reflexivity].
Defined.

(** C9 at a turn whose shutdown failed followed by a turn without a fault:
    the record is printed in the first and the second prints none. *)
Lemma diagnostics_do_not_leak_witness :
  accept_iteration (Some "4433") (Some stderr) (turn shutdown_error_conn) boot =
    Ret tt after_first_turn /\
  accept_iteration (Some "4433") (Some stderr) (turn hello_conn) after_first_turn =
    Ret tt after_second_turn /\
  reported (trace after_first_turn) = [shutdown_record] /\
  queue after_first_turn = [] /\ queue after_second_turn = [] /\
  exists evs, trace after_second_turn = trace after_first_turn ++ evs /\
              incl (reported evs) (iter_errs (turn hello_conn)).
Proof.
  assert (E1 : accept_iteration (Some "4433") (Some stderr) (turn shutdown_error_conn) boot =
               Ret tt after_first_turn) by reflexivity.
  assert (E2 : accept_iteration (Some "4433") (Some stderr) (turn hello_conn)
                 after_first_turn = Ret tt after_second_turn) by reflexivity.
  destruct (diagnostics_do_not_leak _ _ _ _ _ _ _ E1 E2) as (Hq1 & Hq2 & Hev & _).
  repeat split; assumption || reflexivity.
Defined.

(** C10 at a line of 20001 bytes: two reads, nothing lost. *)
Lemma overlong_line_is_read_in_chunks_witness :
  lf_only_last longer_line = true /\
  BUF_SIZE < Z.of_nat (String.length longer_line) /\
  (2 <= List.length (chunks_of capacity longer_line))%nat /\
  fold_right String.append EmptyString (chunks_of capacity longer_line) = longer_line.
Proof.
  assert (Hlf : lf_only_last longer_line = true) by (vm_compute; reflexivity).
  assert (Hlen : BUF_SIZE < Z.of_nat (String.length longer_line)) by (vm_compute; reflexivity).
  destruct (overlong_line_is_read_in_chunks longer_line [] None boot Hlf Hlen)
    as (Hn & Hj & _).
  repeat split; assumption.
Defined.

(** * More of the code's behaviour *)

Local Open Scope list_scope.
Local Open Scope Z_scope.

(** ** Programs that differ in their messages only *)

Lemma mute_snoc_silent q t e :
  silent e = true -> mute (mkWorld q (t ++ [e])) = mkWorld q (filter silent t ++ [e]).
Proof. intros H. unfold mute. cbn [queue trace]. rewrite filter_app. cbn. now rewrite H. Qed.

Lemma mute_snoc_message q t e :
  silent e = false -> mute (mkWorld q (t ++ [e])) = mute (mkWorld q t).
Proof.
  intros H. unfold mute. cbn [queue trace]. rewrite filter_app. cbn.
  now rewrite H, app_nil_r.
Qed.

Lemma mute_queue w1 w2 : mute w1 = mute w2 -> queue w1 = queue w2.
Proof. intros H. exact (f_equal queue H). Qed.

Lemma mute_trace w1 w2 : mute w1 = mute w2 -> filter silent (trace w1) = filter silent (trace w2).
Proof. intros H. exact (f_equal trace H). Qed.

Lemma sim_ret {A} (a : A) : sim (ret a) (ret a).
Proof. intros w1 w2 H. unfold ret. cbn [mute_outcome]. now rewrite H. Qed.

Lemma sim_bind {A B} (m1 m2 : M A) (k1 k2 : A -> M B) :
  sim m1 m2 -> (forall a, sim (k1 a) (k2 a)) -> sim (bind m1 k1) (bind m2 k2).
Proof.
  intros Hm Hk w1 w2 H. unfold bind. specialize (Hm w1 w2 H).
  destruct (m1 w1) as [a1 v1|v1|v1], (m2 w2) as [a2 v2|v2|v2]; cbn [mute_outcome] in Hm; try discriminate.
  - apply Ret_inj in Hm as [-> Hv]. now apply Hk.
  - cbn [mute_outcome]. congruence.
  - cbn [mute_outcome]. congruence.
Qed.

Lemma sim_silent e : silent e = true -> sim (emit e) (emit e).
Proof.
  intros He w1 w2 H. unfold emit. cbn [mute_outcome].
  rewrite !(mute_snoc_silent _ _ _ He), (mute_queue _ _ H), (mute_trace _ _ H). reflexivity.
Qed.

Lemma sim_lib c a : sim (lib c a) (lib c a).
Proof.
  intros w1 w2 H. unfold lib. cbn [mute_outcome].
  rewrite !(mute_snoc_silent _ _ (Call c) eq_refl), (mute_queue _ _ H), (mute_trace _ _ H).
  reflexivity.
Qed.

Lemma sim_libc c : sim (libc c) (libc c).
Proof. now apply sim_silent. Qed.

Lemma sim_fwrite data f : sim (fwrite data f) (fwrite data f).
Proof. now apply sim_silent. Qed.

Lemma sim_printf fmt args : sim (printf fmt args) (printf fmt args).
Proof.
  intros w1 w2 H. unfold printf, fprintf, emit. cbn [mute_outcome].
  rewrite !mute_snoc_message by reflexivity. unfold mute. cbn [queue trace].
  now rewrite (mute_queue _ _ H), (mute_trace _ _ H).
Qed.

Lemma sim_report es fmt args k : sim (if_stream es (fun f => fprintf f fmt args)) (if_stream None k).
Proof.
  intros w1 w2 H. destruct es as [f|]; cbn [if_stream]; unfold fprintf, emit, ret;
    cbn [mute_outcome]; rewrite ?mute_snoc_message by reflexivity.
  - unfold mute. cbn [queue trace]. now rewrite (mute_queue _ _ H), (mute_trace _ _ H).
  - now rewrite H.
Qed.

Lemma sim_assert expr b : sim (assert expr b) (assert expr b).
Proof.
  intros w1 w2 H. unfold assert. destruct b; cbn [mute_outcome]; [now rewrite H|].
  rewrite !mute_snoc_message by reflexivity. unfold mute. cbn [queue trace].
  now rewrite (mute_queue _ _ H), (mute_trace _ _ H).
Qed.

Lemma sim_block {A} : sim (@block A) (@block A).
Proof. intros w1 w2 H. unfold block. cbn [mute_outcome]. now rewrite H. Qed.

Lemma sim_peek : sim ERR_peek_error ERR_peek_error.
Proof.
  intros w1 w2 H. unfold ERR_peek_error. cbn [mute_outcome].
  now rewrite (mute_queue _ _ H), H.
Qed.

Lemma sim_clear : sim ERR_clear_error ERR_clear_error.
Proof.
  intros w1 w2 H. unfold ERR_clear_error. cbn [mute_outcome]. unfold mute. cbn [queue trace].
  now rewrite (mute_trace _ _ H).
Qed.

(** Printing the queue and clearing it, against clearing it. *)
Lemma sim_print_clear {A} es header k (k1 k2 : unit -> M A) :
  (forall u, sim (k1 u) (k2 u)) ->
  sim (bind (if_stream es (fun f => bind (fprintf f header []) (fun _ => ERR_print_errors_fp f)))
         (fun _ => bind ERR_clear_error k1))
      (bind (if_stream None k) (fun _ => bind ERR_clear_error k2)).
Proof.
  intros Hk w1 w2 H. destruct es as [f|]; cbn [if_stream];
    unfold bind, fprintf, emit, ERR_print_errors_fp, ERR_clear_error, ret; cbn [queue trace];
    apply Hk; unfold mute; cbn [queue trace]; rewrite ?filter_app; cbn [filter silent];
    rewrite ?app_nil_r; now rewrite (mute_trace _ _ H).
Qed.

Ltac sim_step :=
  first
    [ apply sim_ret | apply sim_lib | apply sim_libc | apply sim_fwrite | apply sim_printf
    | apply sim_report | apply sim_assert | apply sim_block | apply sim_peek | apply sim_clear
    | apply sim_print_clear; intros ?
    | apply sim_bind; [|intros ?]
    | match goal with
      | |- sim (if ?b then _ else _) (if ?b then _ else _) => destruct b
      | |- sim (match ?r with ReadNext => _ | ReadDone => _ | ReadFailure => _ end) _ =>
          destruct r
      end ].

Lemma sim_read_iteration es s : sim (read_iteration es s) (read_iteration None s).
Proof. unfold read_iteration. repeat sim_step. Qed.

Lemma sim_read_loop es steps : sim (read_loop es steps) (read_loop None steps).
Proof.
  induction steps as [|s steps IH]; cbn [read_loop]; [apply sim_block|].
  apply sim_bind; [apply sim_read_iteration|]. intros []; [exact IH | |]; apply sim_ret.
Qed.

Lemma sim_drain_queue es exit_code : sim (drain_queue es exit_code) (drain_queue None exit_code).
Proof. unfold drain_queue. repeat sim_step. Qed.

Lemma sim_connection_body c es : sim (connection_body c es) (connection_body c None).
Proof.
  unfold connection_body. repeat (apply sim_read_loop || sim_step).
Qed.

Lemma sim_handle_accepted_connection c es :
  sim (handle_accepted_connection c es) (handle_accepted_connection c None).
Proof.
  unfold handle_accepted_connection.
  repeat (apply sim_connection_body || apply sim_drain_queue || sim_step).
Qed.

Lemma sim_print_clear_end es header k :
  sim (bind (if_stream es (fun f => bind (fprintf f header []) (fun _ => ERR_print_errors_fp f)))
         (fun _ => ERR_clear_error))
      (bind (if_stream None k) (fun _ => ERR_clear_error)).
Proof.
  intros w1 w2 H. destruct es as [f|]; cbn [if_stream];
    unfold bind, fprintf, emit, ERR_print_errors_fp, ERR_clear_error, ret; cbn [queue trace];
    cbn [mute_outcome]; unfold mute; cbn [queue trace]; rewrite ?filter_app; cbn [filter silent];
    rewrite ?app_nil_r; now rewrite (mute_trace _ _ H).
Qed.

Lemma sim_accept_iteration port es it :
  sim (accept_iteration port es it) (accept_iteration port None it).
Proof.
  unfold accept_iteration.
  repeat (apply sim_handle_accepted_connection || apply sim_print_clear_end || sim_step).
Qed.

Lemma sim_accept_loop port es iters : sim (accept_loop port es iters) (accept_loop port None iters).
Proof.
  induction iters as [|it iters IH]; cbn [accept_loop]; [repeat sim_step|].
  apply sim_bind; [apply sim_accept_iteration|]. intros _. exact IH.
Qed.

Lemma sim_server_body port key cert es s iters :
  sim (server_body port key cert es s iters) (server_body port key cert None s iters).
Proof. unfold server_body. repeat (apply sim_accept_loop || sim_step). Qed.

Lemma sim_run_tls_server port key cert es s iters :
  sim (run_tls_server port key cert es s iters) (run_tls_server port key cert None s iters).
Proof.
  unfold run_tls_server.
  repeat (apply sim_server_body || apply sim_drain_queue || sim_step).
Qed.

(** ** What a connection echoes and writes *)

Lemma echoed_app t1 t2 : echoed (t1 ++ t2) = echoed t1 ++ echoed t2.
Proof. apply flat_map_app. Qed.

Lemma echoed_message es fmt args : echoed (message es fmt args) = [].
Proof. now destruct es. Qed.

Lemma echoed_queue_report es q : echoed (queue_report es q) = [].
Proof. now destruct q, es. Qed.

#[local] Hint Rewrite echoed_app echoed_message echoed_queue_report : traces.

Lemma echoed_chunks lines : echoed (flat_map chunk_events lines) = lines.
Proof. induction lines as [|l lines IH]; cbn; [reflexivity | now f_equal]. Qed.

Lemma wrote_chunks lines : wrote (flat_map chunk_events lines) = [].
Proof. induction lines as [|l lines IH]; cbn; [reflexivity | exact IH]. Qed.

Lemma lib_calls_chunks lines :
  lib_calls (flat_map chunk_events lines) =
  flat_map (fun _ => [SSL_get_shutdown; BIO_get_line BUF_SIZE]) lines.
Proof. induction lines as [|l lines IH]; cbn; [reflexivity | now do 2 f_equal]. Qed.

(** A read that stores a line: the line is echoed, and the loop ends on the
    empty line only. *)
Lemma read_iteration_stores es s line w :
  stores s line ->
  read_iteration es s w =
    Ret (if is_blank line then ReadDone else ReadNext)
        (mkWorld (queue w ++ rs_errs s) (trace w ++ chunk_events line)).
Proof.
  intros (Hflag & Hn & Hlen & Hlf & left_over & Hbuf).
  unfold read_iteration, chunk_events. step.
  rewrite received_shutdown_bit, Hflag, Hn, Hbuf. cbn [queue trace].
  destruct (Z.leb_spec (Z.of_nat (String.length line)) 0); [lia|].
  step. rewrite Nat2Z.id, take_append, (strcmp_is_blank line left_over Hlf).
  destruct (is_blank line); norm; reflexivity.
Qed.

Lemma read_loop_lines es steps lines :
  Forall2 stores steps lines -> Forall (fun l => is_blank l = false) lines ->
  forall more w,
    read_loop es (steps ++ more) w =
    read_loop es more
      (mkWorld (queue w ++ reads_errs steps) (trace w ++ flat_map chunk_events lines)).
Proof.
  induction 1 as [|s line steps lines Hs _ IH]; intros Hnb more w.
  - cbn. rewrite !app_nil_r. now destruct w.
  - inversion Hnb as [|? ? Hl Hls]; subst. cbn [app read_loop]. unfold bind.
    rewrite (read_iteration_stores es s line w Hs), Hl, (IH Hls).
    cbn [queue trace reads_errs flat_map]. fold (reads_errs steps).
    now rewrite <- !app_assoc.
Qed.

(** The request loop over lines that end with the empty line. *)
Lemma read_loop_request es steps lines s last rest w :
  Forall2 stores steps lines -> Forall (fun l => is_blank l = false) lines ->
  stores s last -> is_blank last = true ->
  read_loop es (steps ++ s :: rest) w =
    Ret false (mkWorld (queue w ++ reads_errs (steps ++ [s]))
                 (trace w ++ flat_map chunk_events (lines ++ [last]))).
Proof.
  intros Hsteps Hnb Hs Hb. rewrite (read_loop_lines es steps lines Hsteps Hnb).
  cbn [read_loop]. unfold bind. rewrite (read_iteration_stores es s last _ Hs), Hb.
  unfold ret. cbn [queue trace]. unfold reads_errs. rewrite !flat_map_app. cbn [flat_map].
  now rewrite !app_nil_r, <- !app_assoc.
Qed.

Lemma wrote_sending : wrote sending = [response].
Proof. reflexivity. Qed.

(** X1. A handshake that fails ends the connection at once.  With its buffer
    allocated and [BIO_do_handshake] returning 0 or less, the handler makes
    no other call on the connection: no [BIO_get_ssl], no read, no write, no
    shutdown.  It reports "TLS handshaking error" on the error stream, frees
    the BIO chain and the buffer, prints and clears what the handshake and
    the release have queued, and returns 1. *)
Theorem failed_handshake_only_releases c es w :
  c_in_buf c = true -> ans_ret (c_handshake c) <= 0 ->
  handle_accepted_connection c es w =
    Ret 1 (mkWorld []
             (trace w ++ [Call (malloc BUF_SIZE); Call BIO_do_handshake] ++
              message es ("TLS handshaking error" ++ nl) [] ++ release ++
              queue_report es (ans_errs (c_handshake c) ++ ans_errs (c_free c)))).
Proof.
  intros Hbuf Hhs. rewrite (handle_accepted_connection_spec c es w Hbuf).
  rewrite (connection_body_handshake c es Hhs). cbn [queue trace].
  destruct (ans_errs (c_handshake c) ++ ans_errs (c_free c)); unfold release; norm; reflexivity.
Qed.

Lemma echoed_receiving : echoed receiving = [].
Proof. reflexivity. Qed.

Lemma echoed_sending : echoed sending = [].
Proof. reflexivity. Qed.

Lemma echoed_closing : echoed closing = [].
Proof. reflexivity. Qed.

Lemma wrote_receiving : wrote receiving = [].
Proof. reflexivity. Qed.

Lemma wrote_closing : wrote closing = [].
Proof. reflexivity. Qed.

Lemma lib_calls_receiving : lib_calls receiving = [BIO_do_handshake; BIO_get_ssl].
Proof. reflexivity. Qed.

Lemma lib_calls_sending : lib_calls sending = [BIO_write response response_length].
Proof. reflexivity. Qed.

Lemma lib_calls_closing : lib_calls closing = [BIO_ssl_shutdown].
Proof. reflexivity. Qed.

#[local] Hint Rewrite echoed_receiving echoed_sending echoed_closing
  wrote_receiving wrote_sending wrote_closing
  lib_calls_receiving lib_calls_sending lib_calls_closing
  echoed_chunks wrote_chunks lib_calls_chunks : traces.

Ltac pieces :=
  cbn [trace]; autorewrite with traces;
  cbn [echoed wrote lib_calls flat_map app]; norm.

(** X2. A request of any number of lines, ended by the empty line.  Every
    line the reads store is echoed to stdout as it is, in order, the ending
    line included; there is one test of the shutdown flag and one
    [BIO_get_line] of [BUF_SIZE] per line, and what the peer would send
    after the empty line is never read.  Then the response, and nothing
    else, is handed to [BIO_write], whatever the lines were; the shutdown
    follows if the write took it in full; the BIO chain and the buffer are
    freed last. *)
Theorem request_is_echoed_line_by_line c es w steps lines s last rest :
  conn_allocated c -> 0 < ans_ret (c_handshake c) ->
  c_reads c = steps ++ s :: rest ->
  Forall2 stores steps lines -> Forall (fun l => is_blank l = false) lines ->
  stores s last -> is_blank last = true ->
  exists exit_code w' evs,
    handle_accepted_connection c es w = Ret exit_code w' /\
    trace w' = trace w ++ evs /\
    echoed evs = lines ++ [last] /\
    wrote evs = [response] /\
    lib_calls evs =
      [malloc BUF_SIZE; BIO_do_handshake; BIO_get_ssl] ++
      flat_map (fun _ => [SSL_get_shutdown; BIO_get_line BUF_SIZE]) (lines ++ [last]) ++
      [BIO_write response response_length] ++
      (if ans_ret (c_write c) =? response_length then [BIO_ssl_shutdown] else []) ++
      [BIO_free_all ssl_bio; free].
Proof.
  intros (Hbuf & Hssl & Hptr) Hhs Hreads Hsteps Hnb Hs Hb.
  pose proof (read_loop_request es steps lines s last rest boot Hsteps Hnb Hs Hb) as R.
  rewrite <- Hreads in R. cbn [boot queue trace app] in R.
  rewrite (handle_accepted_connection_spec c es w Hbuf).
  rewrite (connection_body_reads c es _ _ Hhs Hssl Hptr R). cbn zeta. cbn [queue trace].
  destruct (ans_ret (c_write c) =? response_length);
    eexists _, _, _; (split; [reflexivity|]); (split; [cbn [trace]; reflexivity|]);
    repeat split; pieces; reflexivity.
Qed.

(** The peer has closed: seen by the loop test, or by the read. *)
Lemma read_iteration_closed es s w :
  shutdown_flag s \/ zero_return s ->
  exists q evs,
    read_iteration es s w = Ret ReadDone (mkWorld (queue w ++ q) (trace w ++ evs)) /\
    echoed evs = [] /\ wrote evs = [].
Proof.
  intros H. destruct (Z.testbit (rs_shutdown s) 1) eqn:B.
  - exists [], [Call SSL_get_shutdown]. rewrite (read_iteration_flag es s w B).
    now rewrite app_nil_r.
  - destruct H as [H|[Hn He]]; [unfold shutdown_flag in H; congruence|].
    exists (rs_errs s),
      [Call SSL_get_shutdown; Call (BIO_get_line BUF_SIZE); Call (SSL_get_error (rs_nbytes s))].
    unfold read_iteration. step. rewrite received_shutdown_bit, B. cbn [queue trace].
    destruct (Z.leb_spec (rs_nbytes s) 0); [|lia]. step. rewrite He. cbn [Z.eqb Pos.eqb].
    norm. now repeat split.
Qed.


(** X3. The peer closes its side, after any number of lines and before the
    empty line: the loop test sees [SSL_RECEIVED_SHUTDOWN], or the read
    returns 0 or less with [SSL_ERROR_ZERO_RETURN].  That is no failure:
    the lines read so far have been echoed, nothing else is, and the
    response is still handed to [BIO_write]. *)
Theorem closed_peer_still_gets_response c es w steps lines s rest :
  conn_allocated c -> 0 < ans_ret (c_handshake c) ->
  c_reads c = steps ++ s :: rest ->
  Forall2 stores steps lines -> Forall (fun l => is_blank l = false) lines ->
  shutdown_flag s \/ zero_return s ->
  exists exit_code w' evs,
    handle_accepted_connection c es w = Ret exit_code w' /\
    trace w' = trace w ++ evs /\
    echoed evs = lines /\
    wrote evs = [response].
Proof.
  intros (Hbuf & Hssl & Hptr) Hhs Hreads Hsteps Hnb Hs.
  pose proof (read_loop_lines es steps lines Hsteps Hnb (s :: rest) boot) as R.
  rewrite <- Hreads in R. cbn [boot queue trace app read_loop] in R. unfold bind in R.
  destruct (read_iteration_closed es s
              (mkWorld (reads_errs steps) (flat_map chunk_events lines)) Hs)
    as (q & evs & E & He & Hw).
  rewrite E in R. unfold ret in R. cbn [queue trace] in R.
  rewrite (handle_accepted_connection_spec c es w Hbuf).
  rewrite (connection_body_reads c es _ _ Hhs Hssl Hptr R). cbn zeta. cbn [queue trace].
  destruct (ans_ret (c_write c) =? response_length);
    eexists _, _, _; (split; [reflexivity|]); (split; [cbn [trace]; reflexivity|]);
    split; pieces; rewrite ?He, ?Hw; norm; reflexivity.
Qed.

(** X4. A read that fails for another reason than the peer's close: the
    flag is not set, [BIO_get_line] returns 0 or less and [SSL_get_error]
    gives something else than [SSL_ERROR_ZERO_RETURN].  The lines read
    before have been echoed; the error code is reported on the error
    stream; nothing is written to the peer and there is no shutdown; the BIO
    chain and the buffer are freed, the queue is left empty and the handler
    returns 1. *)
Theorem read_error_sends_no_response c es w steps lines s rest :
  conn_allocated c -> 0 < ans_ret (c_handshake c) ->
  c_reads c = steps ++ s :: rest ->
  Forall2 stores steps lines -> Forall (fun l => is_blank l = false) lines ->
  Z.testbit (rs_shutdown s) 1 = false -> rs_nbytes s <= 0 ->
  rs_ssl_error s <> SSL_ERROR_ZERO_RETURN ->
  exists w' evs,
    handle_accepted_connection c es w = Ret 1 w' /\
    queue w' = [] /\
    trace w' = trace w ++ evs /\
    echoed evs = lines /\
    wrote evs = [] /\
    lib_calls evs =
      [malloc BUF_SIZE; BIO_do_handshake; BIO_get_ssl] ++
      flat_map (fun _ => [SSL_get_shutdown; BIO_get_line BUF_SIZE]) lines ++
      [SSL_get_shutdown; BIO_get_line BUF_SIZE; SSL_get_error (rs_nbytes s);
       BIO_free_all ssl_bio; free] /\
    (forall f, es = Some f ->
       In (Fprintf f ("Error %i while reading data from the client" ++ nl)
             [ArgI (rs_ssl_error s)]) evs).
Proof.
  intros (Hbuf & Hssl & Hptr) Hhs Hreads Hsteps Hnb B Hn He.
  pose proof (read_loop_lines es steps lines Hsteps Hnb (s :: rest) boot) as R.
  rewrite <- Hreads in R. cbn [boot queue trace app read_loop] in R. unfold bind in R.
  rewrite (read_iteration_error es s _ B Hn He) in R. unfold ret in R. cbn [queue trace] in R.
  rewrite (handle_accepted_connection_spec c es w Hbuf).
  rewrite (connection_body_reads c es _ _ Hhs Hssl Hptr R). cbn zeta. cbn [queue trace].
  eexists _, _.
  split; [apply f_equal2; [now destruct (_ ++ ans_errs (c_free c)) | reflexivity]|].
  split; [reflexivity|]. split; [cbn [trace]; reflexivity|].
  repeat split; try (pieces; reflexivity).
  intros f ->. cbn [message]. rewrite !in_app_iff. cbn. auto 10.
Qed.

(** ** What is created is released *)

Lemma read_iteration_uses es s r w1 :
  read_iteration es s boot = Ret r w1 ->
  forallb channel_use (lib_calls (trace w1)) = true.
Proof.
  unfold read_iteration. step.
  destruct (_ =? SSL_RECEIVED_SHUTDOWN); [now intros [= <- <-]|].
  destruct (rs_nbytes s <=? 0).
  - step. destruct (_ =? SSL_ERROR_ZERO_RETURN); [now intros [= <- <-]|].
    destruct es; step; now intros [= <- <-].
  - step. destruct (_ || _); now intros [= <- <-].
Qed.

Lemma read_loop_uses es steps : forall failed w1,
  read_loop es steps boot = Ret failed w1 ->
  forallb channel_use (lib_calls (trace w1)) = true.
Proof.
  induction steps as [|s steps IH]; intros failed w1; cbn [read_loop]; [discriminate|].
  unfold bind. destruct (read_iteration es s boot) as [r w0|w0|w0] eqn:E; try discriminate.
  pose proof (read_iteration_uses _ _ _ _ E) as H0.
  destruct r; try (intros [= <- <-]; exact H0).
  rewrite read_loop_frame.
  destruct (read_loop es steps boot) as [b w2|w2|w2] eqn:E2; cbn [shift]; try discriminate.
  intros [= <- <-]. unfold join. cbn [trace].
  now rewrite lib_calls_app, forallb_app, H0, (IH _ _ eq_refl).
Qed.

Ltac not_zero :=
  match goal with
  | H : match ?q with [] => _ | _ :: _ => _ end = 0 |- _ => now destruct q
  end.

(** X5. The resources of a connection.  Whenever the handler returns, its
    library calls are: the [malloc] of the buffer first; then calls that
    use the connection (handshake, [BIO_get_ssl], shutdown test, read,
    [SSL_get_error], write); then at most one [BIO_ssl_shutdown]; then
    [BIO_free_all] of the SSL BIO and [free] of the buffer, once each and
    last.  The response is written once or not at all, and the handler
    returns 0 only after it has written the response and shut down. *)
Theorem connection_is_released_once c es w exit_code w' :
  handle_accepted_connection c es w = Ret exit_code w' ->
  exists evs uses shutdowns,
    trace w' = trace w ++ evs /\
    lib_calls evs = [malloc BUF_SIZE] ++ uses ++ shutdowns ++ [BIO_free_all ssl_bio; free] /\
    forallb channel_use uses = true /\
    (shutdowns = [] \/ shutdowns = [BIO_ssl_shutdown]) /\
    (wrote evs = [] \/ wrote evs = [response]) /\
    (exit_code = 0 -> shutdowns = [BIO_ssl_shutdown] /\ wrote evs = [response]).
Proof.
  destruct (c_in_buf c) eqn:Hbuf.
  2:{ intros E. pose proof (handle_accepted_connection_no_buffer c es w Hbuf) as N.
      rewrite E in N. discriminate. }
  rewrite (handle_accepted_connection_spec c es w Hbuf).
  destruct (Z.leb_spec (ans_ret (c_handshake c)) 0) as [Hh|Hh].
  { rewrite connection_body_handshake by exact Hh. cbv zeta. cbn [queue trace].
    intros E. apply Ret_inj in E as [<- <-].
    exists ([Call (malloc BUF_SIZE)] ++
            ([Call BIO_do_handshake] ++ message es ("TLS handshaking error" ++ nl) []) ++
            [Call (BIO_free_all ssl_bio); Call free] ++
            queue_report es (ans_errs (c_handshake c) ++ ans_errs (c_free c))),
      [BIO_do_handshake], [].
    split; [reflexivity|]. repeat split; pieces; auto; not_zero. }
  destruct (Z.eq_dec (ans_ret (c_get_ssl c)) 1) as [Hg|Hg].
  2:{ intros E. pose proof (connection_body_assert c es Hh (or_introl Hg)) as N.
      destruct (connection_body c es boot); discriminate. }
  destruct (c_ssl c) eqn:Hs.
  2:{ intros E. pose proof (connection_body_assert c es Hh (or_intror Hs)) as N.
      destruct (connection_body c es boot); discriminate. }
  rewrite (connection_body_after_handshake c es Hh Hg Hs).
  destruct (read_loop es (c_reads c) boot) as [b w1|w1|w1] eqn:E1; try discriminate.
  destruct (read_loop_events _ _ _ _ E1) as (Hw1 & _).
  pose proof (read_loop_uses _ _ _ _ E1) as Hu1. cbv zeta.
  destruct b; [|destruct (_ =? response_length)];
    cbn [queue trace]; intros E; apply Ret_inj in E as [<- <-]; cbn [trace];
    eexists _.
  - exists ([BIO_do_handshake; BIO_get_ssl] ++ lib_calls (trace w1)), [].
    split; [reflexivity|]. repeat split; pieces; rewrite ?Hw1; auto; not_zero.
  - exists ([BIO_do_handshake; BIO_get_ssl] ++ lib_calls (trace w1) ++
            [BIO_write response response_length]), [BIO_ssl_shutdown].
    split; [reflexivity|]. repeat split; pieces; rewrite ?Hw1; auto.
    cbn [forallb channel_use andb]. now rewrite forallb_app, Hu1.
  - exists ([BIO_do_handshake; BIO_get_ssl] ++ lib_calls (trace w1) ++
            [BIO_write response response_length]), [].
    split; [reflexivity|]. repeat split; pieces; rewrite ?Hw1; auto; try not_zero.
    cbn [forallb channel_use andb]. now rewrite forallb_app, Hu1.
Qed.

Lemma lib_calls_context_calls key cert :
  lib_calls (context_calls key cert) =
  [SSL_CTX_new; SSL_CTX_use_PrivateKey_file key SSL_FILETYPE_PEM;
   SSL_CTX_use_certificate_chain_file cert; SSL_CTX_check_private_key].
Proof. reflexivity. Qed.

Lemma lib_calls_bind_calls port :
  lib_calls (bind_calls port) =
  [SSL_CTX_set_mode SSL_MODE_AUTO_RETRY; BIO_new_accept port; BIO_do_accept].
Proof. reflexivity. Qed.

Lemma lib_calls_server_release : lib_calls server_release = [BIO_free_all accept_bio; SSL_CTX_free].
Proof. reflexivity. Qed.

#[local] Hint Rewrite lib_calls_context_calls lib_calls_bind_calls lib_calls_server_release
  : traces.

(** X6. The resources of the server.  Whenever [run_tls_server] returns, its
    library calls are one of four lists: the context is created first and
    freed last; the accept BIO is freed, before the context, exactly when
    it has been created; and no call of the accept loop is among them. *)
Theorem server_releases_what_it_created port key cert es s iters w exit_code w' :
  run_tls_server port key cert es s iters w = Ret exit_code w' ->
  exists evs,
    trace w' = trace w ++ evs /\
    In (lib_calls evs) (server_calls port key cert).
Proof.
  intros E.
  destruct (Z.eq_dec (ans_ret (s_ctx_new s)) 0) as [Hc|Hc].
  { pose proof (run_tls_server_no_context port key cert es s iters w Hc) as N.
    rewrite E in N. discriminate. }
  destruct (Z.leb_spec (ans_ret (s_use_key s)) 0) as [Hk|Hk].
  { rewrite run_tls_server_key in E by assumption. apply Ret_inj in E as [_ <-].
    eexists. split; [reflexivity|]. pieces. left. reflexivity. }
  destruct (Z.leb_spec (ans_ret (s_use_cert s)) 0) as [Hcert|Hcert].
  { rewrite run_tls_server_cert in E by assumption. apply Ret_inj in E as [_ <-].
    eexists. split; [reflexivity|]. pieces. right. left. reflexivity. }
  destruct (Z.leb_spec (ans_ret (s_check_key s)) 0) as [Hchk|Hchk].
  { rewrite run_tls_server_check in E by assumption. apply Ret_inj in E as [_ <-].
    eexists. split; [reflexivity|]. pieces. right. right. left. reflexivity. }
  destruct (Z.eq_dec (ans_ret (s_new_accept s)) 0) as [Hn|Hn].
  { pose proof (run_tls_server_no_accept_bio port key cert es s iters w Hk Hcert Hchk Hn) as N.
    rewrite E in N. discriminate. }
  destruct (Z.leb_spec (ans_ret (s_bind s)) 0) as [Hb|Hb].
  { rewrite run_tls_server_bind in E by (try split; assumption).
    apply Ret_inj in E as [_ <-].
    eexists. split; [reflexivity|]. pieces. right. right. right. left. reflexivity. }
  destruct (residue s) as [|r q] eqn:Er.
  { destruct (run_tls_server_loop port key cert es s iters w) as [N _];
      [split; assumption | repeat split; assumption | exact Er |].
    rewrite E in N. discriminate. }
  rewrite run_tls_server_residue in E
    by (try rewrite Er; repeat split; try assumption; discriminate).
  apply Ret_inj in E as [_ <-].
  eexists. split; [reflexivity|]. pieces. right. right. right. left. reflexivity.
Qed.

(** X7. The port cannot be bound.  Started with its three arguments, with the
    key and the certificate loaded and matching, a first [BIO_do_accept]
    that returns 0 or less ends the program: the message with the port goes
    to stderr, the accept BIO and then the context are freed, no turn of the
    accept loop is made whoever is waiting, and [main] returns 1. *)
Theorem bind_failure_ends_the_program prog port key cert s iters :
  setup_asserts s -> 0 < ans_ret (s_use_key s) -> 0 < ans_ret (s_use_cert s) ->
  0 < ans_ret (s_check_key s) -> ans_ret (s_bind s) <= 0 ->
  exists w',
    main [prog; port; key; cert] s iters boot = Ret 1 w' /\
    In (Fprintf stderr
          ("Could not bind to port %s and start listening for incoming TCP connections" ++ nl)
          [ArgS (Some port)]) (trace w') /\
    lib_calls (trace w') =
      [SSL_CTX_new; SSL_CTX_use_PrivateKey_file (Some key) SSL_FILETYPE_PEM;
       SSL_CTX_use_certificate_chain_file (Some cert); SSL_CTX_check_private_key;
       SSL_CTX_set_mode SSL_MODE_AUTO_RETRY; BIO_new_accept (Some port); BIO_do_accept;
       BIO_free_all accept_bio; SSL_CTX_free] /\
    turns (trace w') = 0%nat.
Proof.
  intros Ha Hk Hc Hchk Hb. rewrite main_four_arguments. unfold bind at 1.
  rewrite run_tls_server_bind by assumption. step. eexists. split; [reflexivity|].
  cbn [trace boot app]. split; [|split].
  - rewrite !in_app_iff. cbn. auto 10.
  - autorewrite with traces. reflexivity.
  - rewrite !turns_app, turns_queue_report, turns_message_other by reflexivity. reflexivity.
Qed.

(** X8. The exit code of the program.  [main] never returns 0: whenever it
    returns, it returns 1, and the last thing it has printed is the usage
    message or "TLS communication failed".  The branch that prints "TLS
    communication succeeded" is never taken, for [run_tls_server] returns
    only on failure. *)
Theorem main_never_reports_success argv s iters w exit_code w' :
  main argv s iters w = Ret exit_code w' ->
  exit_code = 1 /\
  exists evs e,
    trace w' = trace w ++ evs ++ [e] /\
    (e = Fprintf stderr usage [ArgS (arg argv 0)] \/
     e = Fprintf stderr ("TLS communication failed" ++ nl) []).
Proof.
  unfold main.
  destruct (negb (Z.of_nat (List.length argv) =? 3) && negb (Z.of_nat (List.length argv) =? 4)).
  - step. intros E. apply Ret_inj in E as [<- <-]. split; [reflexivity|].
    exists [], (Fprintf stderr usage [ArgS (arg argv 0)]). cbn [trace app]. auto.
  - cbv zeta. unfold bind at 1.
    destruct (run_tls_server _ _ _ _ _ _ _) as [code w1|w1|w1] eqn:R; try discriminate.
    destruct (run_tls_server_inv _ _ _ _ _ _ _ _ _ R) as (-> & _ & _ & evs & Ht & _).
    cbn [Z.eqb negb]. step. intros E. apply Ret_inj in E as [<- <-].
    split; [reflexivity|].
    exists (Call SSL_CTX_new :: evs), (Fprintf stderr ("TLS communication failed" ++ nl) []).
    cbn [trace]. rewrite Ht, <- app_assoc. auto.
Qed.

(** X9. What [error_stream] is for.  It selects where the messages go and
    nothing else: with any error stream, [run_tls_server] and
    [handle_accepted_connection] end the way they end with the NULL stream
    (returned, aborted or waiting), with the same value, the same error
    queue, and the same library calls and echoes of the request in the same
    order. *)
Theorem error_stream_selects_messages_only port key cert es s iters c w :
  mute_outcome (run_tls_server port key cert es s iters w) =
  mute_outcome (run_tls_server port key cert None s iters w) /\
  mute_outcome (handle_accepted_connection c es w) =
  mute_outcome (handle_accepted_connection c None w).
Proof.
  split; [apply sim_run_tls_server | apply sim_handle_accepted_connection]; reflexivity.
Qed.

(** ** Nothing on stderr but by [error_stream] and [assert] *)

Lemma to_stderr_snoc t e :
  to_stderr (t ++ [e]) = to_stderr t ++ to_stderr [e].
Proof. unfold to_stderr. now rewrite filter_app. Qed.

Lemma quiet_ret {A} (a : A) : quiet (ret a).
Proof. intros w. reflexivity. Qed.

Lemma quiet_bind {A B} (m : M A) (k : A -> M B) :
  quiet m -> (forall a, quiet (k a)) -> quiet (bind m k).
Proof.
  intros Hm Hk w. unfold bind. specialize (Hm w).
  destruct (m w) as [a w1|w1|w1]; [|exact Hm|exact Hm].
  specialize (Hk a w1). destruct (k a w1) as [b w2|w2|w2]; rewrite <- Hm; exact Hk.
Qed.

Lemma quiet_emit e : to_stderr [e] = [] -> quiet (emit e).
Proof.
  intros He w. unfold emit. cbn [trace]. now rewrite to_stderr_snoc, He, app_nil_r.
Qed.

Lemma quiet_lib c a : quiet (lib c a).
Proof.
  intros w. unfold lib. cbn [trace]. rewrite to_stderr_snoc. cbn. apply app_nil_r.
Qed.

Lemma quiet_libc c : quiet (libc c).
Proof. now apply quiet_emit. Qed.

Lemma quiet_fwrite data : quiet (fwrite data stdout).
Proof. now apply quiet_emit. Qed.

Lemma quiet_printf fmt args : quiet (printf fmt args).
Proof. now apply quiet_emit. Qed.

(** A failed [assert] is the one thing that writes to stderr unasked. *)
Lemma quiet_assert expr b : quiet (assert expr b).
Proof.
  intros w. unfold assert. destruct b; [reflexivity|].
  exists expr. cbn [trace]. now rewrite to_stderr_snoc.
Qed.

Lemma quiet_block {A} : quiet (@block A).
Proof. intros w. reflexivity. Qed.

Lemma quiet_peek : quiet ERR_peek_error.
Proof. intros w. reflexivity. Qed.

Lemma quiet_clear : quiet ERR_clear_error.
Proof. intros w. reflexivity. Qed.

Lemma quiet_report es fmt args :
  es <> Some stderr -> quiet (if_stream es (fun f => fprintf f fmt args)).
Proof.
  intros H. destruct es as [[]|]; cbn [if_stream]; [|contradiction|apply quiet_ret].
  now apply quiet_emit.
Qed.

Lemma quiet_print es header :
  es <> Some stderr ->
  quiet (if_stream es (fun f => bind (fprintf f header []) (fun _ => ERR_print_errors_fp f))).
Proof.
  intros H. destruct es as [[]|]; cbn [if_stream]; [|contradiction|apply quiet_ret].
  intros w. unfold bind, fprintf, emit, ERR_print_errors_fp. cbn [trace queue].
  rewrite !to_stderr_snoc. cbn. now rewrite !app_nil_r.
Qed.

Ltac quiet_step H :=
  first
    [ apply quiet_ret | apply quiet_lib | apply quiet_libc | apply quiet_fwrite
    | apply quiet_printf | apply (quiet_report _ _ _ H) | apply (quiet_print _ _ H)
    | apply quiet_assert | apply quiet_block | apply quiet_peek | apply quiet_clear
    | apply quiet_bind; [|intros ?]
    | match goal with
      | |- quiet (if ?b then _ else _) => destruct b
      | |- quiet (match ?r with ReadNext => _ | ReadDone => _ | ReadFailure => _ end) =>
          destruct r
      end ].

Lemma quiet_read_loop es steps : es <> Some stderr -> quiet (read_loop es steps).
Proof.
  intros H. induction steps as [|s steps IH]; cbn [read_loop]; [apply quiet_block|].
  apply quiet_bind; [unfold read_iteration; repeat quiet_step H|].
  intros []; [exact IH | |]; apply quiet_ret.
Qed.

Lemma quiet_handle_accepted_connection c es :
  es <> Some stderr -> quiet (handle_accepted_connection c es).
Proof.
  intros H. unfold handle_accepted_connection, connection_body, drain_queue.
  repeat (apply (quiet_read_loop _ _ H) || quiet_step H).
Qed.

Lemma quiet_accept_loop port es iters : es <> Some stderr -> quiet (accept_loop port es iters).
Proof.
  intros H. induction iters as [|it iters IH]; cbn [accept_loop]; [repeat quiet_step H|].
  apply quiet_bind; [|intros _; exact IH]. unfold accept_iteration.
  repeat (apply (quiet_handle_accepted_connection _ _ H) || quiet_step H).
Qed.

(** X10. Who writes to stderr.  [run_tls_server] and
    [handle_accepted_connection] name no stream but stdout and the one
    they are given: with the NULL stream, or with stdout, for
    [error_stream], a run that returns or waits for the peer has written
    nothing to stderr, and a run that aborts has written there the
    diagnostic of the one [assert] that failed, and nothing else. *)
Theorem only_error_stream_reaches_stderr port key cert es s iters c :
  es <> Some stderr ->
  quiet (run_tls_server port key cert es s iters) /\
  quiet (handle_accepted_connection c es).
Proof.
  intros H. split; [|now apply quiet_handle_accepted_connection].
  unfold run_tls_server, server_body, drain_queue.
  repeat (apply (quiet_accept_loop _ _ _ H) || quiet_step H).
Qed.

(** ** When a connection succeeds *)

Lemma queue_mute_outcome {A} (o : Outcome A) :
  queue (world_of (mute_outcome o)) = queue (world_of o).
Proof. now destruct o. Qed.

(** The records the read loop leaves do not depend on [error_stream]. *)
Lemma read_loop_queue es steps failed w1 :
  read_loop es steps boot = Ret failed w1 -> queue w1 = reads_queue steps.
Proof.
  intros E. unfold reads_queue.
  rewrite <- (queue_mute_outcome (read_loop None steps boot)).
  rewrite <- (sim_read_loop es steps boot boot eq_refl), queue_mute_outcome, E. reflexivity.
Qed.

(** X11. The exit code 0 of a connection.  The handler returns 0 exactly
    when the buffer and the SSL pointer are there, the handshake returns
    more than 0, the read loop ends without a failure, [BIO_write] takes
    the whole response, and no call from the handshake to [BIO_free_all],
    the unchecked shutdown included, has left a record on the error
    queue. *)
Theorem connection_succeeds_iff c es w :
  (exists w', handle_accepted_connection c es w = Ret 0 w') <->
  conn_allocated c /\ 0 < ans_ret (c_handshake c) /\
  reads_end (c_reads c) = Some false /\
  ans_ret (c_write c) = response_length /\
  conn_pending c = [].
Proof.
  unfold conn_allocated, conn_pending. split.
  - intros [w' E].
    destruct (c_in_buf c) eqn:Hbuf.
    2:{ pose proof (handle_accepted_connection_no_buffer c es w Hbuf) as N.
        rewrite E in N. discriminate. }
    rewrite (handle_accepted_connection_spec c es w Hbuf) in E.
    destruct (Z.leb_spec (ans_ret (c_handshake c)) 0) as [Hh|Hh].
    { rewrite connection_body_handshake in E by exact Hh. cbv zeta in E.
      apply Ret_inj in E as [E _]. not_zero. }
    destruct (Z.eq_dec (ans_ret (c_get_ssl c)) 1) as [Hg|Hg].
    2:{ pose proof (connection_body_assert c es Hh (or_introl Hg)) as N.
        destruct (connection_body c es boot); discriminate. }
    destruct (c_ssl c) eqn:Hs.
    2:{ pose proof (connection_body_assert c es Hh (or_intror Hs)) as N.
        destruct (connection_body c es boot); discriminate. }
    rewrite (connection_body_after_handshake c es Hh Hg Hs) in E.
    destruct (read_loop es (c_reads c) boot) as [b w1|w1|w1] eqn:E1; try discriminate.
    pose proof (read_loop_ctl (c_reads c) es boot) as Hend. rewrite E1 in Hend.
    cbn [ctl_of] in Hend. rewrite <- (read_loop_queue _ _ _ _ E1).
    cbv zeta in E.
    destruct b; [apply Ret_inj in E as [E _]; not_zero|].
    destruct (Z.eqb_spec (ans_ret (c_write c)) response_length) as [Hw|Hw];
      apply Ret_inj in E as [E _]; cbn [queue] in E; [|not_zero].
    repeat split; auto.
    destruct (_ ++ ans_errs (c_free c)) eqn:Q in E; [|discriminate].
    rewrite <- Q. now rewrite <- !app_assoc.
  - intros ((Hbuf & Hg & Hs) & Hh & Hend & Hw & Hq).
    destruct (read_loop_Ret es (c_reads c) false boot Hend) as [w1 E1].
    rewrite <- (read_loop_queue _ _ _ _ E1) in Hq.
    rewrite (handle_accepted_connection_spec c es w Hbuf).
    rewrite (connection_body_reads c es _ _ Hh Hg Hs E1). cbv zeta.
    rewrite Hw, Z.eqb_refl. cbn [queue]. rewrite <- !app_assoc, Hq.
    eexists. reflexivity.
Qed.

(** ** A turn of the accept loop that handles a connection *)


(** X12. A turn that accepts a connection.  The server calls
    [BIO_do_accept], [BIO_pop], [BIO_new_ssl] and [BIO_push], in this order,
    and then handles the connection.  What these four calls, or anything
    before them, have left on the error queue is never printed: the
    handler's [ERR_clear_error] discards it, so the turn adds to the trace
    the banner, the four calls, and exactly what the handler does when
    started with an empty queue.  The handler's exit code is dropped and
    the turn ends with the queue empty. *)
Theorem accepted_turn_discards_earlier_records port es it w exit_code w' :
  0 < ans_ret (i_accept it) -> ans_ret (i_pop it) <> 0 -> ans_ret (i_new_ssl it) <> 0 ->
  handle_accepted_connection (i_conn it) es boot = Ret exit_code w' ->
  accept_iteration port es it w =
    Ret tt (mkWorld []
              (trace w ++ banner port ++
               [Call BIO_do_accept; Call BIO_pop; Call BIO_new_ssl; Call BIO_push] ++
               trace w')).
Proof.
  intros Ha Hp Hn E. rewrite (accept_iteration_handled port es it w Ha Hp Hn).
  rewrite (handle_accepted_connection_from_boot _ _ _ _ _ E). cbn [trace].
  now rewrite <- !app_assoc.
Qed.

(** ** A failure is reported *)


Lemma read_iteration_diagnostics f s r w1 :
  read_iteration (Some f) s boot = Ret r w1 ->
  (r = ReadFailure -> diagnostics (trace w1) <> []) /\
  (r <> ReadFailure -> diagnostics (trace w1) = []).
Proof.
  unfold read_iteration. step.
  destruct (_ =? SSL_RECEIVED_SHUTDOWN); [intros [= <- <-]; now split|].
  destruct (rs_nbytes s <=? 0).
  - step. destruct (_ =? SSL_ERROR_ZERO_RETURN); [intros [= <- <-]; now split|].
    intros [= <- <-]. split; [intros _; discriminate | congruence].
  - step. destruct (_ || _); intros [= <- <-]; now split.
Qed.

Lemma read_loop_diagnostics f steps : forall failed w1,
  read_loop (Some f) steps boot = Ret failed w1 ->
  (failed = true -> diagnostics (trace w1) <> []) /\
  (failed = false -> diagnostics (trace w1) = []).
Proof.
  induction steps as [|s steps IH]; intros failed w1; cbn [read_loop]; [discriminate|].
  unfold bind. destruct (read_iteration (Some f) s boot) as [r w0|w0|w0] eqn:E;
    try discriminate.
  destruct (read_iteration_diagnostics _ _ _ _ E) as [Hf Hn].
  destruct r.
  - rewrite read_loop_frame.
    destruct (read_loop (Some f) steps boot) as [b w2|w2|w2] eqn:E2; cbn [shift];
      try discriminate.
    intros [= <- <-]. destruct (IH _ _ eq_refl) as [Hf2 Hn2].
    unfold join. cbn [trace]. rewrite diagnostics_app, Hn by discriminate. cbn [app].
    now split.
  - intros [= <- <-]. split; [discriminate | intros _; apply Hn; discriminate].
  - intros [= <- <-]. split; [intros _; now apply Hf | discriminate].
Qed.

Lemma diagnostics_queue_report f q :
  diagnostics (queue_report (Some f) q) = [] <-> q = [].
Proof. destruct q; cbn; split; congruence. Qed.

(** X13. A failure is reported.  Given an error stream, the handler returns
    0 exactly when it has printed none of its diagnostics: a connection
    that ends with exit code 1 has said why (handshake, read, short write,
    or the records of the error queue), and one that ends with 0 has
    printed no such message. *)
Theorem exit_code_tells_of_diagnostics c f w exit_code w' :
  handle_accepted_connection c (Some f) w = Ret exit_code w' ->
  exists evs,
    trace w' = trace w ++ evs /\
    (exit_code = 0 <-> diagnostics evs = []).
Proof.
  destruct (c_in_buf c) eqn:Hbuf.
  2:{ intros E. pose proof (handle_accepted_connection_no_buffer c (Some f) w Hbuf) as N.
      rewrite E in N. discriminate. }
  rewrite (handle_accepted_connection_spec c (Some f) w Hbuf).
  destruct (Z.leb_spec (ans_ret (c_handshake c)) 0) as [Hh|Hh].
  { rewrite connection_body_handshake by exact Hh. cbv zeta. cbn [queue trace].
    intros E. apply Ret_inj in E as [<- <-]. eexists. split; [reflexivity|].
    rewrite !diagnostics_app. cbn [message].
    split; [intros H; not_zero | discriminate]. }
  destruct (Z.eq_dec (ans_ret (c_get_ssl c)) 1) as [Hg|Hg].
  2:{ intros E. pose proof (connection_body_assert c (Some f) Hh (or_introl Hg)) as N.
      destruct (connection_body c (Some f) boot); discriminate. }
  destruct (c_ssl c) eqn:Hs.
  2:{ intros E. pose proof (connection_body_assert c (Some f) Hh (or_intror Hs)) as N.
      destruct (connection_body c (Some f) boot); discriminate. }
  rewrite (connection_body_after_handshake c (Some f) Hh Hg Hs).
  destruct (read_loop (Some f) (c_reads c) boot) as [b w1|w1|w1] eqn:E1; try discriminate.
  destruct (read_loop_diagnostics _ _ _ _ E1) as [Hf1 Hn1]. cbv zeta.
  destruct b; [|destruct (_ =? response_length)];
    cbn [queue trace]; intros E; apply Ret_inj in E as [<- <-]; cbn [trace];
    (eexists; split; [reflexivity|]); rewrite !diagnostics_app.
  - split; [intros H; not_zero|]. intros H.
    apply app_eq_nil in H as [_ H]. apply app_eq_nil in H as [H _].
    apply app_eq_nil in H as [_ H]. now apply Hf1 in H.
  - rewrite (Hn1 eq_refl).
    change (diagnostics sending) with (@nil Event).
    change (diagnostics closing) with (@nil Event).
    change (diagnostics receiving) with (@nil Event).
    change (diagnostics [Call (malloc BUF_SIZE)]) with (@nil Event).
    change (diagnostics [Call (BIO_free_all ssl_bio); Call free]) with (@nil Event).
    cbn [app]. rewrite diagnostics_queue_report.
    destruct (_ ++ ans_errs (c_free c)); split; congruence.
  - split; [intros H; not_zero|]. intros H.
    apply app_eq_nil in H as [_ H]. apply app_eq_nil in H as [H _].
    apply app_eq_nil in H as [_ H]. apply app_eq_nil in H as [_ H]. discriminate.
Qed.

(** ** The theorems at concrete scripts *)

(** X1 at [bad_handshake_conn]. *)
Lemma failed_handshake_only_releases_witness :
  lib_calls (trace (world_of (handle_accepted_connection bad_handshake_conn (Some stderr) boot)))
  = [malloc BUF_SIZE; BIO_do_handshake; BIO_free_all ssl_bio; free].
Proof.
  rewrite (failed_handshake_only_releases bad_handshake_conn (Some stderr) boot).
  - reflexivity.
  - reflexivity.
  - vm_compute. discriminate.
Defined.

(** X2 at [request_conn]: three lines are read and echoed, the fourth is
    never asked for. *)
Lemma request_is_echoed_line_by_line_witness :
  exists exit_code w' evs,
    handle_accepted_connection request_conn (Some stderr) boot = Ret exit_code w' /\
    trace w' = evs /\
    echoed evs = ["GET / HTTP/1.0" ++ crnl; "Host: a" ++ crnl; crnl]%string.
Proof.
  destruct (request_is_echoed_line_by_line request_conn (Some stderr) boot
              [data_step ("GET / HTTP/1.0" ++ crnl);
               noisy_step ("Host: a" ++ crnl) ("/1.0" ++ crnl) retry_record]
              ["GET / HTTP/1.0" ++ crnl; "Host: a" ++ crnl]%string
              (noisy_step crnl ("t: a" ++ crnl) retry_record) crnl
              [data_step ("never read" ++ nl)])
    as (exit_code & w' & evs & E & Ht & He & _).
  - repeat split.
  - reflexivity.
  - reflexivity.
  - repeat constructor; vm_compute; try reflexivity; try lia; eexists; reflexivity.
  - repeat constructor.
  - repeat split; vm_compute; try reflexivity; try lia. eexists; reflexivity.
  - reflexivity.
  - exists exit_code, w', evs. auto.
Defined.

(** X3 at [closed_conn]: nothing is echoed, the response is written. *)
Lemma closed_peer_still_gets_response_witness :
  exists exit_code w' evs,
    handle_accepted_connection closed_conn (Some stderr) boot = Ret exit_code w' /\
    trace w' = evs /\ echoed evs = [] /\ wrote evs = [response].
Proof.
  destruct (closed_peer_still_gets_response closed_conn (Some stderr) boot
              [] [] (mkReadStep 2 0 EmptyString [] 0) [])
    as (exit_code & w' & evs & E & Ht & He & Hw).
  - repeat split.
  - reflexivity.
  - reflexivity.
  - constructor.
  - constructor.
  - left. reflexivity.
  - exists exit_code, w', evs. auto.
Defined.

(** X4 at [reset_conn]: the line is echoed, nothing is written. *)
Lemma read_error_sends_no_response_witness :
  exists w' evs,
    handle_accepted_connection reset_conn (Some stderr) boot = Ret 1 w' /\
    trace w' = evs /\ echoed evs = ["GET / HTTP/1.0" ++ crnl]%string /\ wrote evs = [].
Proof.
  destruct (read_error_sends_no_response reset_conn (Some stderr) boot
              [data_step ("GET / HTTP/1.0" ++ crnl)] ["GET / HTTP/1.0" ++ crnl]%string
              (mkReadStep 0 (-1) EmptyString [reset_record] 1) [])
    as (w' & evs & E & _ & Ht & He & Hw & _).
  - repeat split.
  - reflexivity.
  - reflexivity.
  - repeat constructor; vm_compute; try reflexivity; try lia. eexists; reflexivity.
  - repeat constructor.
  - reflexivity.
  - vm_compute. discriminate.
  - vm_compute. discriminate.
  - exists w', evs. auto.
Defined.

(** X5 at [short_write_conn]. *)
Lemma connection_is_released_once_witness :
  exists evs uses shutdowns,
    trace (world_of (handle_accepted_connection short_write_conn (Some stderr) boot)) =
      trace boot ++ evs /\
    lib_calls evs = [malloc BUF_SIZE] ++ uses ++ shutdowns ++ [BIO_free_all ssl_bio; free] /\
    forallb channel_use uses = true.
Proof.
  destruct (connection_is_released_once short_write_conn (Some stderr) boot 1
              (world_of (handle_accepted_connection short_write_conn (Some stderr) boot)))
    as (evs & uses & shutdowns & Ht & Hc & Hu & _).
  - vm_compute. reflexivity.
  - exists evs, uses, shutdowns. auto.
Defined.

(** X6 at [no_bind_setup]. *)
Lemma server_releases_what_it_created_witness :
  exists evs,
    trace (world_of (run_tls_server (Some "4433") (Some "key.pem") (Some "chain.pem")
                       (Some stderr) no_bind_setup [] boot)) = trace boot ++ evs /\
    In (lib_calls evs) (server_calls (Some "4433") (Some "key.pem") (Some "chain.pem")).
Proof.
  apply (server_releases_what_it_created (Some "4433") (Some "key.pem") (Some "chain.pem")
           (Some stderr) no_bind_setup [] boot 1).
  vm_compute. reflexivity.
Defined.

(** X7 at [no_bind_setup], with a client waiting. *)
Lemma bind_failure_ends_the_program_witness :
  exists w',
    main ["tls-server"; "4433"; "key.pem"; "chain.pem"]%string no_bind_setup
      [turn hello_conn] boot = Ret 1 w' /\
    turns (trace w') = 0%nat.
Proof.
  destruct (bind_failure_ends_the_program "tls-server" "4433" "key.pem" "chain.pem"
              no_bind_setup [turn hello_conn])
    as (w' & E & _ & _ & Ht).
  - split; vm_compute; discriminate.
  - reflexivity.
  - reflexivity.
  - reflexivity.
  - vm_compute. discriminate.
  - now exists w'.
Defined.

(** X8 at a start without arguments. *)
Lemma main_never_reports_success_witness :
  exists evs e,
    trace (world_of (main ["tls-server"]%string good_setup [] boot)) = trace boot ++ evs ++ [e] /\
    (e = Fprintf stderr usage [ArgS (arg ["tls-server"]%string 0)] \/
     e = Fprintf stderr ("TLS communication failed" ++ nl) []).
Proof.
  apply (main_never_reports_success ["tls-server"]%string good_setup [] boot 1).
  vm_compute. reflexivity.
Defined.

(** X10 with the messages sent to stdout: a server that cannot bind leaves
    stderr empty, and a handler whose [malloc] fails leaves there the
    diagnostic of [assert(in_buf)]. *)
Lemma only_error_stream_reaches_stderr_witness :
  to_stderr (trace (world_of (run_tls_server (Some "4433") (Some "key.pem") (Some "chain.pem")
                                (Some stdout) no_bind_setup [] boot))) = [] /\
  exists expr,
    to_stderr (trace (world_of (handle_accepted_connection no_buffer_conn None boot))) =
      [Assertion expr].
Proof.
  destruct (only_error_stream_reaches_stderr (Some "4433") (Some "key.pem") (Some "chain.pem")
              (Some stdout) no_bind_setup [] hello_conn) as [Q _]; [discriminate|].
  destruct (only_error_stream_reaches_stderr (Some "4433") (Some "key.pem") (Some "chain.pem")
              None no_bind_setup [] no_buffer_conn) as [_ Q']; [discriminate|].
  split; [exact (Q boot) | exact (Q' boot)].
Defined.

(** X12 at a turn whose accept leaves a record: the record is not printed. *)
Lemma accepted_turn_discards_earlier_records_witness :
  reported (trace (world_of (accept_iteration (Some "4433") (Some stderr) noisy_turn boot)))
  = [].
Proof.
  rewrite (accepted_turn_discards_earlier_records (Some "4433") (Some stderr) noisy_turn boot 0
             (world_of (handle_accepted_connection hello_conn (Some stderr) boot))).
  - reflexivity.
  - reflexivity.
  - vm_compute. discriminate.
  - vm_compute. discriminate.
  - vm_compute. reflexivity.
Defined.

(** X13 at [short_write_conn]: exit code 1, and a diagnostic. *)
Lemma exit_code_tells_of_diagnostics_witness :
  exists evs,
    trace (world_of (handle_accepted_connection short_write_conn (Some stderr) boot)) =
      trace boot ++ evs /\
    (1 = 0 <-> diagnostics evs = []).
Proof.
  apply (exit_code_tells_of_diagnostics short_write_conn stderr boot 1
           (world_of (handle_accepted_connection short_write_conn (Some stderr) boot))).
  vm_compute. reflexivity.
Defined.
